(** * libjxl frame headers, image bundles and codec I/O

    A shallow embedding of the inline code of
    [lib/jxl/frame_header.h], [lib/jxl/image_bundle.h] and
    [lib/jxl/codec_in_out.h], with the properties of the metadata layer
    stated and proved over it.

    Conventions
    - unsigned C++ integers ([uint8_t], [uint32_t], [uint64_t], [size_t])
      are values of [Z]; where the C++ arithmetic can wrap, the wrap is
      written out with [mod];
    - array indices and loop counters ([size_t c], [size_t i]) are [nat];
    - fixed-size arrays and [std::vector]/[std::string] are lists, read with
      stdpp's total lookup [l !!! i] and written with [<[i:=x]> l];
    - [Status] is a boolean, [true] for success; a method that mutates its
      object returns the status together with the object afterwards. *)

From Stdlib Require Import ZArith QArith Lia String.
From stdpp Require Import base list.

Local Open Scope Z_scope.

(** ** Status (lib/jxl/base/status.h) *)

Definition Status := bool.

(** [JXL_FAILURE(msg)] reports the message and yields a failed status. *)
Definition JXL_FAILURE (msg : string) : Status := false.

Definition two64 : Z := 2 ^ 64.
Definition two32 : Z := 2 ^ 32.

(** ** Chroma subsampling descriptor *)

Module YCbCrChromaSubsampling.

(** [static constexpr uint8_t kHShift[4] = {0, 1, 1, 0}] and
    [kVShift[4] = {0, 1, 0, 1}], indexed by a channel mode. *)
Definition kHShift_table : list Z := [0; 1; 1; 0].
Definition kVShift_table : list Z := [0; 1; 0; 1].
Definition kHShift (i : nat) : Z := kHShift_table !!! i.
Definition kVShift (i : nat) : Z := kVShift_table !!! i.

(** [uint32_t channel_mode_[3]; uint8_t maxhs_; uint8_t maxvs_;] *)
Record t := mk {
  channel_mode_ : list Z;
  maxhs_ : Z;
  maxvs_ : Z
}.

Definition set_channel_mode (s : t) (c : nat) (v : Z) : t :=
  {| channel_mode_ := <[c := v]> (channel_mode_ s);
     maxhs_ := maxhs_ s; maxvs_ := maxvs_ s |}.

(** The shift tables read at the mode stored for channel [c]. *)
Definition mode_hshift (s : t) (c : nat) : Z :=
  kHShift (Z.to_nat (channel_mode_ s !!! c)).
Definition mode_vshift (s : t) (c : nat) : Z :=
  kVShift (Z.to_nat (channel_mode_ s !!! c)).

(** [size_t HShift(size_t c) const]: the difference is converted to
    [size_t]. *)
Definition HShift (s : t) (c : nat) : Z := (maxhs_ s - mode_hshift s c) mod two64.
Definition VShift (s : t) (c : nat) : Z := (maxvs_ s - mode_vshift s c) mod two64.

Definition MaxHShift (s : t) : Z := maxhs_ s.
Definition MaxVShift (s : t) : Z := maxvs_ s.

(** The body of the loop of [Recompute], for [i] from [i] to 2. *)
Fixpoint Recompute_loop (n : nat) (i : nat) (s : t) : t :=
  match n with
  | O => s
  | S n' =>
      Recompute_loop n' (S i)
        {| channel_mode_ := channel_mode_ s;
           maxhs_ := Z.max (maxhs_ s) (mode_hshift s i);
           maxvs_ := Z.max (maxvs_ s) (mode_vshift s i) |}
  end.

Definition Recompute (s : t) : t :=
  Recompute_loop 3 0
    {| channel_mode_ := channel_mode_ s; maxhs_ := 0; maxvs_ := 0 |}.

(** The inner loop of [Set]: [for (; i < 4; i++)], leaving at the first
    mode whose sampling factors are [(h, v)]. The result is the value of
    [i] after the loop: the matching mode, or 4 when none matches. *)
Fixpoint find_mode (n : nat) (i : nat) (h v : Z) : nat :=
  match n with
  | O => i
  | S n' =>
      if (Z.shiftl 1 (kHShift i) =? h) && (Z.shiftl 1 (kVShift i) =? v)
      then i
      else find_mode n' (S i) h v
  end.

(** [size_t cjpeg = c < 2 ? c ^ 1 : c;] *)
Definition cjpeg (c : nat) : nat :=
  if (c <? 2)%nat then Nat.lxor c 1 else c.

(** The outer loop of [Set], for [c] from [c] to 2. A channel that
    matches no mode returns at once; [Recompute] runs only after the
    third channel. *)
Fixpoint Set_loop (n : nat) (c : nat) (hsample vsample : list Z) (s : t)
  : Status * t :=
  match n with
  | O => (true, Recompute s)
  | S n' =>
      let i := find_mode 4 0 (hsample !!! cjpeg c) (vsample !!! cjpeg c) in
      if (i =? 4)%nat
      then (JXL_FAILURE "Invalid subsample mode", s)
      else Set_loop n' (S c) hsample vsample
             (set_channel_mode s c (Z.of_nat i))
  end.

(** [Status Set(const uint8_t* hsample, const uint8_t* vsample)], in JPEG
    channel order (Y, Cb, Cr). [Set] is a keyword here, hence [Set_]. *)
Definition Set_ (s : t) (hsample vsample : list Z) : Status * t :=
  Set_loop 3 0 hsample vsample s.

(** [for (size_t c : {0, 2}) if (channel_mode_[c] != channel_mode_[1])
    return false; return true;] *)
Definition Is444 (s : t) : bool :=
  if negb (channel_mode_ s !!! 0%nat =? channel_mode_ s !!! 1%nat) then false
  else if negb (channel_mode_ s !!! 2%nat =? channel_mode_ s !!! 1%nat) then false
  else true.

Definition Is420 (s : t) : bool :=
  (channel_mode_ s !!! 0%nat =? 1) && (channel_mode_ s !!! 1%nat =? 0)
  && (channel_mode_ s !!! 2%nat =? 1).

Definition Is422 (s : t) : bool :=
  if (mode_hshift s 0 =? mode_hshift s 1 + 1)
     && (mode_vshift s 0 =? mode_vshift s 1) then false
  else if (mode_hshift s 2 =? mode_hshift s 1 + 1)
          && (mode_vshift s 2 =? mode_vshift s 1) then false
  else true.

Definition Is440 (s : t) : bool :=
  if (mode_hshift s 0 =? mode_hshift s 1)
     && (mode_vshift s 0 =? mode_vshift s 1 + 1) then false
  else if (mode_hshift s 2 =? mode_hshift s 1)
          && (mode_vshift s 2 =? mode_vshift s 1 + 1) then false
  else true.

End YCbCrChromaSubsampling.

(** ** Codestream metadata, as the headers see it *)

Module ImageMetadata.

(** Modelled from the spec: [PreviewHeader] ([lib/jxl/headers.h]) is not
    part of the sources at hand; the code reads its [xsize()] and
    [ysize()] only. *)
Record PreviewHeader := mkPreview {
  preview_xsize : Z;
  preview_ysize : Z
}.

(** Modelled from the spec: the second metadata block, of which the code
    reads the preview declaration. *)
Record ImageMetadata2 := mkM2 {
  have_preview : bool
}.

(** Modelled from the spec: [ImageMetadata]
    ([lib/jxl/image_metadata.h]) is not part of the sources at hand. It
    holds the codestream-wide facts; the code reads the default image size
    ([xsize()], [ysize()]), the preview size and the preview
    declaration. *)
Record t := mk {
  xsize : Z;
  ysize : Z;
  nonserialized_preview : PreviewHeader;
  m2 : ImageMetadata2
}.

End ImageMetadata.

(** ** Frame header entities *)

Inductive FrameEncoding := kVarDCT | kModular.

Inductive ColorTransform := kXYB | kNone | kYCbCr.

Inductive BlendMode := kReplace | kAdd | kBlend | kAlphaWeightedAdd | kMul.

(** The enumerators' values: [kReplace = 0] up to [kMul = 4]. *)
Definition BlendMode_value (m : BlendMode) : Z :=
  match m with
  | kReplace => 0 | kAdd => 1 | kBlend => 2 | kAlphaWeightedAdd => 3 | kMul => 4
  end.

Inductive FrameType := kRegularFrame | kDCFrame | kReferenceOnly.

Definition FrameType_eqb (a b : FrameType) : bool :=
  match a, b with
  | kRegularFrame, kRegularFrame | kDCFrame, kDCFrame
  | kReferenceOnly, kReferenceOnly => true
  | _, _ => false
  end.

Record BlendingInfo := mkBlendingInfo {
  mode : BlendMode;
  alpha_channel : Z;
  clamp : bool;
  source : Z;
  nonserialized_has_multiple_extra_channels : bool;
  nonserialized_is_partial_frame : bool
}.

Record FrameOrigin := mkFrameOrigin { x0 : Z; y0 : Z }.

Record FrameSize := mkFrameSize { fs_xsize : Z; fs_ysize : Z }.

(** [const ImageMetadata*] members are read-only views of the one metadata
    object of the codestream: [None] is [nullptr]. *)
Record AnimationFrame := mkAnimationFrame {
  duration : Z;
  timecode : Z;
  af_nonserialized_image_metadata : option ImageMetadata.t
}.

Record Passes := mkPasses {
  num_passes : Z;
  num_downsample : Z;
  downsample : list Z;
  last_pass : list Z;
  shift : list Z
}.

(** Modelled from the spec: [DivCeil] ([lib/jxl/common.h]) is not part of
    the sources at hand; it divides rounding up. *)
Definition DivCeil (a b : Z) : Z := (a + b - 1) / b.

Module FrameHeader.

(** [enum Flags] *)
Definition kNoise : Z := 1.
Definition kPatches : Z := 2.
Definition kSplines : Z := 16.
Definition kUseDcFrame : Z := 32.
Definition kSkipAdaptiveDCSmoothing : Z := 128.

(** The members of [FrameHeader], without the loop filter, which no code
    here reads. *)
Record t := mk {
  all_default : bool;
  encoding : FrameEncoding;
  frame_type : FrameType;
  flags : Z;
  color_transform : ColorTransform;
  chroma_subsampling : YCbCrChromaSubsampling.t;
  group_size_shift : Z;
  x_qm_scale : Z;
  name : list Z;
  passes : Passes;
  custom_size_or_origin : bool;
  frame_size : FrameSize;
  upsampling : Z;
  extra_channel_upsampling : list Z;
  frame_origin : FrameOrigin;
  blending_info : BlendingInfo;
  extra_channel_blending_info : list BlendingInfo;
  animation_frame : AnimationFrame;
  is_last : bool;
  save_as_reference : Z;
  save_before_color_transform : bool;
  dc_level : Z;
  nonserialized_image_metadata : option ImageMetadata.t;
  nonserialized_is_preview : bool;
  extensions : Z
}.

(** [flags |= flag] or [flags &= ~flag], on 64 bits: the value of [flags]
    afterwards. *)
Definition UpdateFlag (h : t) (condition : bool) (flag : Z) : Z :=
  if condition then Z.lor (flags h) flag
  else Z.land (flags h) (Z.lxor (two64 - 1) flag).

Definition CanBeReferenced (h : t) : bool :=
  negb (is_last h) && negb (FrameType_eqb (frame_type h) kDCFrame)
  && ((duration (animation_frame h) =? 0) || negb (save_as_reference h =? 0)).

Definition default_xsize (h : t) : Z :=
  match nonserialized_image_metadata h with
  | None => 0
  | Some m =>
      if nonserialized_is_preview h
      then ImageMetadata.preview_xsize (ImageMetadata.nonserialized_preview m)
      else ImageMetadata.xsize m
  end.

Definition default_ysize (h : t) : Z :=
  match nonserialized_image_metadata h with
  | None => 0
  | Some m =>
      if nonserialized_is_preview h
      then ImageMetadata.preview_ysize (ImageMetadata.nonserialized_preview m)
      else ImageMetadata.ysize m
  end.

(** [1 << (3 * dc_level)]: the count is a [uint32_t] product, the shifted
    [1] is an [int]. The expression is defined while the count stays
    below 31. *)
Definition dc_divisor (h : t) : Z :=
  Z.shiftl 1 ((3 * dc_level h) mod two32).

Section ToFrameDimensions.
(** [FrameDimensions] and its [Set] ([lib/jxl/common.h]) are not part
    of the sources at hand: the type and the function are parameters,
    and [ToFrameDimensions] is the call it makes. *)
Context {FrameDimensions : Type}.
Variable FrameDimensions_Set : Z -> Z -> Z -> Z -> Z -> Z -> FrameDimensions.

Definition ToFrameDimensions (h : t) : FrameDimensions :=
  let xsize := default_xsize h in
  let ysize := default_ysize h in
  let xsize := if fs_xsize (frame_size h) =? 0 then xsize
               else fs_xsize (frame_size h) in
  let ysize := if fs_ysize (frame_size h) =? 0 then ysize
               else fs_ysize (frame_size h) in
  let '(xsize, ysize) :=
    if negb (dc_level h =? 0)
    then (DivCeil xsize (dc_divisor h), DivCeil ysize (dc_divisor h))
    else (xsize, ysize) in
  FrameDimensions_Set xsize ysize (group_size_shift h)
    (YCbCrChromaSubsampling.MaxHShift (chroma_subsampling h))
    (YCbCrChromaSubsampling.MaxVShift (chroma_subsampling h))
    (upsampling h).
End ToFrameDimensions.

End FrameHeader.

(** ** Blending formulas *)

(** Modelled from the spec: the renderer that blends frames is not part of
    the sources at hand. The formulas are those of the comments of
    [enum class BlendMode], which the specification tabulates, over exact
    rationals: [old] and [new] are the samples, [old_alpha] and
    [new_alpha] the alpha values of the two frames. *)
Definition blend_alpha (old new : Q) : Q := (old + new * (1 - old))%Q.

Definition blend_sample (m : BlendMode) (is_alpha_channel alpha_associated : bool)
    (old new old_alpha new_alpha : Q) : Q :=
  match m with
  | kReplace => new
  | kAdd => (old + new)%Q
  | kBlend =>
      if is_alpha_channel then blend_alpha old new
      else if alpha_associated then ((1 - new_alpha) * old + new)%Q
      else (((1 - new_alpha) * old * old_alpha + new_alpha * new)
            / blend_alpha old_alpha new_alpha)%Q
  | kAlphaWeightedAdd =>
      if is_alpha_channel then blend_alpha old new
      else (old + new_alpha * new)%Q
  | kMul => (old * new)%Q
  end.

(** ** Images *)

(** Modelled from the spec: the pixel containers ([lib/jxl/image.h]) are
    not part of the sources at hand. An image is its dimensions and its
    rows of samples; [ImageU] holds 16-bit samples, [Image3F] three planes
    of real samples. *)
Record ImageU := mkImageU {
  iu_xsize : Z;
  iu_ysize : Z;
  iu_rows : list (list Z)
}.

Record Image3F := mkImage3F {
  i3_xsize : Z;
  i3_ysize : Z;
  i3_planes : list (list (list Q))
}.

(** [Image3F()]: the empty image. *)
Definition Image3F_empty : Image3F := mkImage3F 0 0 [].

(** Modelled from the spec: [CopyImage] ([lib/jxl/image_ops.h]) gives a
    new image that is equal, sample by sample, to its argument. *)
Definition CopyImage {A : Type} (image : A) : A := image.

(** Modelled from the spec: of the transcoded JPEG payload
    ([brunsli::JPEGData]) the code reads the declared width and height. *)
Record JPEGData := mkJPEGData {
  width : Z;
  height : Z;
  jpeg_payload : list Z
}.

(** ** Image bundle *)

Module ImageBundle.
Section WithColorEncoding.
(** [ColorEncoding] ([lib/jxl/color_encoding_internal.h]) is not part
    of the sources at hand: the type and its default value are
    parameters, as is the initial value of the chroma subsampling
    descriptor, whose constructor is declared only. *)
Context {ColorEncoding : Type}.
Variable ColorEncoding_init : ColorEncoding.
Variable YCbCrChromaSubsampling_init : YCbCrChromaSubsampling.t.

Record t := mk {
  jpeg_data : option JPEGData;
  color_transform : ColorTransform;
  chroma_subsampling : YCbCrChromaSubsampling.t;
  origin : FrameOrigin;
  duration : Z;
  use_for_next_frame : bool;
  blend : bool;
  metadata_ : option ImageMetadata.t;
  color_ : Image3F;
  c_current_ : ColorEncoding;
  extra_channels_ : list ImageU;
  decoded_bytes_ : Z
}.

(** [explicit ImageBundle(const ImageMetadata* metadata)], with the
    default member initializers of the class. *)
Definition new (metadata : option ImageMetadata.t) : t :=
  {| jpeg_data := None;
     color_transform := kNone;
     chroma_subsampling := YCbCrChromaSubsampling_init;
     origin := mkFrameOrigin 0 0;
     duration := 0;
     use_for_next_frame := false;
     blend := false;
     metadata_ := metadata;
     color_ := Image3F_empty;
     c_current_ := ColorEncoding_init;
     extra_channels_ := [];
     decoded_bytes_ := 0 |}.

(** The loop of [Copy]: [emplace_back(CopyImage(plane))] for every
    plane, onto the copy's channels [acc]. *)
Fixpoint Copy_extra_channels (planes acc : list ImageU) : list ImageU :=
  match planes with
  | [] => acc
  | plane :: rest => Copy_extra_channels rest (acc ++ [CopyImage plane])
  end.

Definition Copy (b : t) : t :=
  let copy := new (metadata_ b) in
  {| jpeg_data := match jpeg_data b with
                  | Some j => Some j
                  | None => None
                  end;
     color_transform := color_transform b;
     chroma_subsampling := chroma_subsampling b;
     origin := origin copy;
     duration := duration copy;
     use_for_next_frame := use_for_next_frame copy;
     blend := blend copy;
     metadata_ := metadata_ copy;
     color_ := CopyImage (color_ b);
     c_current_ := c_current_ b;
     extra_channels_ :=
       Copy_extra_channels (extra_channels_ b) (extra_channels_ copy);
     decoded_bytes_ := decoded_bytes_ copy |}.

Definition IsJPEG (b : t) : bool :=
  match jpeg_data b with Some _ => true | None => false end.

(** [jpeg_data->width], for a bundle that holds a payload. *)
Definition jpeg_width (b : t) : Z :=
  match jpeg_data b with Some j => width j | None => 0 end.
Definition jpeg_height (b : t) : Z :=
  match jpeg_data b with Some j => height j | None => 0 end.

Definition xsize (b : t) : Z :=
  if IsJPEG b then jpeg_width b
  else if negb (i3_xsize (color_ b) =? 0) then i3_xsize (color_ b)
  else match extra_channels_ b with
       | [] => 0
       | plane :: _ => iu_xsize plane
       end.

Definition ysize (b : t) : Z :=
  if IsJPEG b then jpeg_height b
  else if negb (i3_ysize (color_ b) =? 0) then i3_ysize (color_ b)
  else match extra_channels_ b with
       | [] => 0
       | plane :: _ => iu_ysize plane
       end.

Definition HasColor (b : t) : bool := negb (i3_xsize (color_ b) =? 0).

Definition HasExtraChannels (b : t) : bool :=
  match extra_channels_ b with [] => false | _ => true end.

(** [void RemoveColor() { color_ = Image3F(); }] *)
Definition RemoveColor (b : t) : t :=
  {| jpeg_data := jpeg_data b; color_transform := color_transform b;
     chroma_subsampling := chroma_subsampling b; origin := origin b;
     duration := duration b; use_for_next_frame := use_for_next_frame b;
     blend := blend b; metadata_ := metadata_ b; color_ := Image3F_empty;
     c_current_ := c_current_ b; extra_channels_ := extra_channels_ b;
     decoded_bytes_ := decoded_bytes_ b |}.

Definition SetDecodedBytes (b : t) (decoded_bytes : Z) : t :=
  {| jpeg_data := jpeg_data b; color_transform := color_transform b;
     chroma_subsampling := chroma_subsampling b; origin := origin b;
     duration := duration b; use_for_next_frame := use_for_next_frame b;
     blend := blend b; metadata_ := metadata_ b; color_ := color_ b;
     c_current_ := c_current_ b; extra_channels_ := extra_channels_ b;
     decoded_bytes_ := decoded_bytes |}.

End WithColorEncoding.

Arguments t : clear implicits.
End ImageBundle.

(** ** Codec input and output *)

Inductive DecodeTarget := kPixels | kQuantizedCoeffs | kLosslessFloat.

Module DecoderHints.
(** [std::vector<KeyValue> kv_], in the order of addition. *)
Definition t := list (string * string).

Definition Add (hints : t) (key value : string) : t := hints ++ [(key, value)].

Fixpoint Foreach (func : string -> string -> Status) (hints : t) : Status :=
  match hints with
  | [] => true
  | (key, value) :: rest =>
      if negb (func key value)
      then JXL_FAILURE "DecoderHints::Foreach returned false"
      else Foreach func rest
  end.
End DecoderHints.

(** Of [CodecMetadata], the image metadata [m]; the size, preview and
    animation headers are not read by the code here. *)
Record CodecMetadata := mkCodecMetadata {
  m : ImageMetadata.t
}.

Module CodecInOut.
Section WithImageBundle.
Context {ColorEncoding ThreadPool : Type}.

(** [ImageBundle::TransformTo] is declared in [image_bundle.h] and
    defined elsewhere: it is a parameter, giving the status of the
    call and the bundle afterwards. *)
Variable ImageBundle_TransformTo :
  ColorEncoding -> option ThreadPool -> ImageBundle.t ColorEncoding ->
  Status * ImageBundle.t ColorEncoding.

(** The members of [CodecInOut], without [target_nits] and [blobs], which
    no code here reads. *)
Record t := mk {
  dec_max_xsize : Z;
  dec_max_ysize : Z;
  dec_max_pixels : Z;
  dec_hints : DecoderHints.t;
  dec_target : DecodeTarget;
  dec_pixels : Z;
  metadata : CodecMetadata;
  preview_frame : ImageBundle.t ColorEncoding;
  frames : list (ImageBundle.t ColorEncoding);
  use_sjpeg : bool;
  jpeg_quality : Z
}.

(** The default member initializers of the decoder limits:
    [0xFFFFFFFFu], [0xFFFFFFFFu] and [~0ull]. *)
Definition dec_max_xsize_init : Z := 0xFFFFFFFF.
Definition dec_max_ysize_init : Z := 0xFFFFFFFF.
Definition dec_max_pixels_init : Z := two64 - 1.

(** [CodecInOut()], given the initial metadata and the initial values
    that [ImageBundle::ImageBundle] takes; [jpeg_quality] has no
    initializer. *)
Definition new (md : CodecMetadata) (c_init : ColorEncoding)
    (cs_init : YCbCrChromaSubsampling.t) (quality : Z) : t :=
  let bundle := ImageBundle.new c_init cs_init in
  {| dec_max_xsize := dec_max_xsize_init;
     dec_max_ysize := dec_max_ysize_init;
     dec_max_pixels := dec_max_pixels_init;
     dec_hints := [];
     dec_target := kPixels;
     dec_pixels := 0;
     metadata := md;
     preview_frame := bundle (Some (m md));
     frames := [bundle (Some (m md))];
     use_sjpeg := false;
     jpeg_quality := quality |}.

(** [template <typename T> Status VerifyDimensions(T xs, T ys) const],
    for an unsigned [T] of at most 64 bits; the pixel count is a
    product of [uint64_t]. *)
Definition VerifyDimensions (io : t) (xs ys : Z) : Status :=
  if (xs =? 0) || (ys =? 0) then JXL_FAILURE "Empty image."
  else if xs >? dec_max_xsize io then JXL_FAILURE "Image too wide."
  else if ys >? dec_max_ysize io then JXL_FAILURE "Image too tall."
  else
    let num_pixels := (xs * ys) mod two64 in
    if num_pixels >? dec_max_pixels io then JXL_FAILURE "Image too big."
    else true.

Definition set_preview_frame (io : t) (p : ImageBundle.t ColorEncoding) : t :=
  {| dec_max_xsize := dec_max_xsize io; dec_max_ysize := dec_max_ysize io;
     dec_max_pixels := dec_max_pixels io; dec_hints := dec_hints io;
     dec_target := dec_target io; dec_pixels := dec_pixels io;
     metadata := metadata io; preview_frame := p; frames := frames io;
     use_sjpeg := use_sjpeg io; jpeg_quality := jpeg_quality io |}.

Definition set_frames (io : t) (fs : list (ImageBundle.t ColorEncoding)) : t :=
  {| dec_max_xsize := dec_max_xsize io; dec_max_ysize := dec_max_ysize io;
     dec_max_pixels := dec_max_pixels io; dec_hints := dec_hints io;
     dec_target := dec_target io; dec_pixels := dec_pixels io;
     metadata := metadata io; preview_frame := preview_frame io;
     frames := fs; use_sjpeg := use_sjpeg io;
     jpeg_quality := jpeg_quality io |}.

(** [for (ImageBundle& ib : frames)
       JXL_RETURN_IF_ERROR(ib.TransformTo(c_desired, pool));]
    the frames afterwards, and whether the loop ran to its end. *)
Fixpoint TransformTo_frames (c_desired : ColorEncoding)
    (pool : option ThreadPool) (fs : list (ImageBundle.t ColorEncoding))
  : Status * list (ImageBundle.t ColorEncoding) :=
  match fs with
  | [] => (true, [])
  | ib :: rest =>
      let '(ok, ib') := ImageBundle_TransformTo c_desired pool ib in
      if ok then
        let '(ok_rest, rest') := TransformTo_frames c_desired pool rest in
        (ok_rest, ib' :: rest')
      else (false, ib' :: rest)
  end.

Definition TransformTo (io : t) (c_desired : ColorEncoding)
    (pool : option ThreadPool) : Status * t :=
  let '(ok, io) :=
    if ImageMetadata.have_preview (ImageMetadata.m2 (m (metadata io)))
    then
      let '(ok, p) := ImageBundle_TransformTo c_desired pool (preview_frame io) in
      (ok, set_preview_frame io p)
    else (true, io) in
  if ok then
    let '(ok, fs) := TransformTo_frames c_desired pool (frames io) in
    (ok, set_frames io fs)
  else (false, io).

End WithImageBundle.

Arguments t : clear implicits.
End CodecInOut.

(** ** Field visitors *)

(** Modelled from the spec: the bit stream and the field coders
    ([lib/jxl/fields.h], the bit reader and the bit writer) are not part of
    the sources at hand. A stream is a list of bits; an [n]-bit field is
    the [n] low bits of its value, lowest first. *)
Fixpoint bits_of (n : nat) (v : Z) : list bool :=
  match n with
  | O => []
  | S n' => Z.odd v :: bits_of n' (Z.div2 v)
  end.

Fixpoint value_of (bits : list bool) : Z :=
  match bits with
  | [] => 0
  | b :: rest => Z.b2z b + 2 * value_of rest
  end.

(** Modelled from the spec: the variants of the variable-width integer
    codec: a constant, a raw [n]-bit value, a raw [n]-bit value plus an
    offset. *)
Inductive U32Distr :=
| Val (v : Z)
| Bits (n : nat)
| BitsOffset (n : nat) (offset : Z).

#[export] Instance U32Distr_inhabited : Inhabited U32Distr := populate (Val 0).

(** A variant's payload width, and the least value it represents. *)
Definition distr_bits (d : U32Distr) : nat :=
  match d with Val _ => O | Bits n => n | BitsOffset n _ => n end.

Definition distr_base (d : U32Distr) : Z :=
  match d with Val v => v | Bits _ => 0 | BitsOffset _ offset => offset end.

(** The range of a variant contains [v]. *)
Definition distr_contains (d : U32Distr) (v : Z) : bool :=
  (distr_base d <=? v) && (v <? distr_base d + 2 ^ Z.of_nat (distr_bits d)).

(** A visit threads the stream and may fail: [None] is a failed
    [Status]. *)
Definition visit (S A : Type) : Type := S -> option (A * S).

Definition visit_ret {S A : Type} (a : A) : visit S A := fun s => Some (a, s).

Definition visit_bind {S A B : Type} (v : visit S A) (k : A -> visit S B)
  : visit S B :=
  fun s => match v s with
           | Some (a, s') => k a s'
           | None => None
           end.

Declare Scope visit_scope.
Delimit Scope visit_scope with visit.
(** [JXL_QUIET_RETURN_IF_ERROR(e)], followed by the rest of the body. *)
Notation "x <- e ;; k" := (visit_bind e (fun x => k))
  (at level 100, e at next level, right associativity) : visit_scope.

Module Visitor.
(** Modelled from the spec: the visitor interface. [Bits] and [U32] take
    the field's coding, its default and its current value, and give the
    value afterwards. *)
Class t (S : Type) := {
  IsReading : bool;
  Bits : nat -> Z -> Z -> visit S Z;
  U32 : U32Distr -> U32Distr -> U32Distr -> U32Distr -> Z -> Z -> visit S Z
}.
End Visitor.

(** Modelled from the spec: decoding. The stream is the list of the bits
    not yet read. *)
Definition read_bits (n : nat) : visit (list bool) Z :=
  fun s => if (length s <? n)%nat then None
           else Some (value_of (take n s), drop n s).

Definition read_U32 (d0 d1 d2 d3 : U32Distr) : visit (list bool) Z :=
  (selector <- read_bits 2 ;;
   let d := [d0; d1; d2; d3] !!! Z.to_nat selector in
   payload <- read_bits (distr_bits d) ;;
   visit_ret (distr_base d + payload))%visit.

#[export] Instance ReadVisitor : Visitor.t (list bool) := {|
  Visitor.IsReading := true;
  Visitor.Bits := fun n _ _ => read_bits n;
  Visitor.U32 := fun d0 d1 d2 d3 _ _ => read_U32 d0 d1 d2 d3
|}.

(** Modelled from the spec: encoding. The stream is the list of the bits
    written so far; a value outside the range of its coding is a
    failure. *)
Definition write_bits (n : nat) (v : Z) : visit (list bool) Z :=
  fun s => if (0 <=? v) && (v <? 2 ^ Z.of_nat n)
           then Some (v, s ++ bits_of n v)
           else None.

(** The variant of least index whose range contains the value. *)
Fixpoint select_distr (selector : Z) (ds : list U32Distr) (v : Z)
  : option (Z * U32Distr) :=
  match ds with
  | [] => None
  | d :: rest =>
      if distr_contains d v then Some (selector, d)
      else select_distr (selector + 1) rest v
  end.

Definition write_U32 (d0 d1 d2 d3 : U32Distr) (v : Z) : visit (list bool) Z :=
  match select_distr 0 [d0; d1; d2; d3] v with
  | None => fun _ => None
  | Some (selector, d) =>
      (_ <- write_bits 2 selector ;;
       _ <- write_bits (distr_bits d) (v - distr_base d) ;;
       visit_ret v)%visit
  end.

Module WriteVisitor.
#[export] Instance WriteVisitor : Visitor.t (list bool) := {|
  Visitor.IsReading := false;
  Visitor.Bits := fun n _ v => write_bits n v;
  Visitor.U32 := fun d0 d1 d2 d3 _ v => write_U32 d0 d1 d2 d3 v
|}.
End WriteVisitor.

(** ** Names *)

Section VisitNameString.
(** Whether [char] is a signed type is left to the platform. A character
    is its value as a [char]. *)
Variable char_is_signed : bool.

(** The conversion of [uint32_t c = name[i]]. *)
Definition char_to_uint32 (ch : Z) : Z := ch mod two32.

(** [static_cast<char>(c)] *)
Definition uint32_to_char (c : Z) : Z :=
  let low := c mod 256 in
  if char_is_signed && (128 <=? low) then low - 256 else low.

Context {S : Type} (visitor : Visitor.t S).

(** [for (size_t i = 0; i < name_length; i++)], from [i] on, with
    [n = name_length - i]. *)
Fixpoint VisitNameString_loop (n : nat) (i : nat) (name : list Z)
  : visit S (list Z) :=
  match n with
  | O => visit_ret name
  | Datatypes.S n' =>
      let c := char_to_uint32 (name !!! i) in
      (c <- Visitor.Bits 8 0 c ;;
       VisitNameString_loop n' (Datatypes.S i) (<[i := uint32_to_char c]> name))%visit
  end.

(** [static inline Status VisitNameString(Visitor*, std::string* name)]:
    the name afterwards. *)
Definition VisitNameString (name : list Z) : visit S (list Z) :=
  let name_length := Z.of_nat (length name) mod two32 in
  (name_length <- Visitor.U32 (Val 0) (Bits 4) (BitsOffset 5 16)
                    (BitsOffset 10 48) 0 name_length ;;
   let name := if Visitor.IsReading
               then resize (Z.to_nat name_length) 0 name else name in
   VisitNameString_loop (Z.to_nat name_length) 0 name)%visit.

End VisitNameString.

(** ** The fields of the chroma subsampling descriptor *)

Module YCbCrChromaSubsamplingFields.
Section VisitFields.
Context {St : Type} (visitor : Visitor.t St).

(** [for (size_t i = 0; i < 3; i++)
       JXL_QUIET_RETURN_IF_ERROR(visitor->Bits(2, 0, &channel_mode_[i]));]
    from [i] on, with [n = 3 - i]. *)
Fixpoint VisitFields_loop (n : nat) (i : nat) (s : YCbCrChromaSubsampling.t)
  : visit St YCbCrChromaSubsampling.t :=
  match n with
  | O => visit_ret s
  | S n' =>
      (v <- Visitor.Bits 2 0 (YCbCrChromaSubsampling.channel_mode_ s !!! i) ;;
       VisitFields_loop n' (S i)
         (YCbCrChromaSubsampling.set_channel_mode s i v))%visit
  end.

(** [Status VisitFields(Visitor* visitor) override]: the descriptor
    afterwards. *)
Definition VisitFields (s : YCbCrChromaSubsampling.t)
  : visit St YCbCrChromaSubsampling.t :=
  (s <- VisitFields_loop 3 0 s ;;
   visit_ret (YCbCrChromaSubsampling.Recompute s))%visit.

End VisitFields.
End YCbCrChromaSubsamplingFields.

(** ** The frame header after a flag update *)

Module FrameHeaderUpdate.
Import FrameHeader.

Definition set_flags (h : t) (fl : Z) : t :=
  {| all_default := all_default h; encoding := encoding h;
     frame_type := frame_type h; flags := fl;
     color_transform := color_transform h;
     chroma_subsampling := chroma_subsampling h;
     group_size_shift := group_size_shift h; x_qm_scale := x_qm_scale h;
     name := name h; passes := passes h;
     custom_size_or_origin := custom_size_or_origin h;
     frame_size := frame_size h; upsampling := upsampling h;
     extra_channel_upsampling := extra_channel_upsampling h;
     frame_origin := frame_origin h; blending_info := blending_info h;
     extra_channel_blending_info := extra_channel_blending_info h;
     animation_frame := animation_frame h; is_last := is_last h;
     save_as_reference := save_as_reference h;
     save_before_color_transform := save_before_color_transform h;
     dc_level := dc_level h;
     nonserialized_image_metadata := nonserialized_image_metadata h;
     nonserialized_is_preview := nonserialized_is_preview h;
     extensions := extensions h |}.

(** The header after [UpdateFlag(condition, flag)]: only [flags]
    changes. *)
Definition after_UpdateFlag (h : t) (condition : bool) (flag : Z) : t :=
  set_flags h (UpdateFlag h condition flag).

End FrameHeaderUpdate.

(** ** Reference notions used in the statements *)

(** The four sampling patterns of a channel, (1,1), (2,2), (2,1) and
    (1,2), with the mode that stands for each. *)
Definition sampling_pattern (h v : Z) : option nat :=
  if (h =? 1) && (v =? 1) then Some 0%nat
  else if (h =? 2) && (v =? 2) then Some 1%nat
  else if (h =? 2) && (v =? 1) then Some 2%nat
  else if (h =? 1) && (v =? 2) then Some 3%nat
  else None.

(** [q] is [a] divided by [b], rounded up. *)
Definition is_div_rounded_up (q a b : Z) : Prop :=
  b * (q - 1) < a <= b * q.

(** The size a frame starts from: its explicit size when that is nonzero,
    else the preview size for a preview header, else the image size. *)
Definition start_size (explicit image preview : Z) (is_preview : bool) : Z :=
  if decide (explicit <> 0) then explicit
  else if is_preview then preview else image.

(** The bundles that [CodecInOut::TransformTo] is to transform, in order:
    the preview when the metadata declares one, then the frames. *)
Definition transform_targets {ColorEncoding : Type}
    (io : CodecInOut.t ColorEncoding) : list (ImageBundle.t ColorEncoding) :=
  (if ImageMetadata.have_preview
        (ImageMetadata.m2 (m (CodecInOut.metadata io)))
   then [CodecInOut.preview_frame io] else [])
  ++ CodecInOut.frames io.

(** A call of [ImageBundle::TransformTo] on a bundle: whether it succeeds,
    and the bundle it leaves. *)
Definition transform_succeeds {ColorEncoding ThreadPool : Type}
    (TransformTo : ColorEncoding -> option ThreadPool ->
                   ImageBundle.t ColorEncoding ->
                   Status * ImageBundle.t ColorEncoding)
    (c_desired : ColorEncoding) (pool : option ThreadPool)
    (ib : ImageBundle.t ColorEncoding) : Prop :=
  fst (TransformTo c_desired pool ib) = true.

Definition transform_result {ColorEncoding ThreadPool : Type}
    (TransformTo : ColorEncoding -> option ThreadPool ->
                   ImageBundle.t ColorEncoding ->
                   Status * ImageBundle.t ColorEncoding)
    (c_desired : ColorEncoding) (pool : option ThreadPool)
    (ib : ImageBundle.t ColorEncoding) : ImageBundle.t ColorEncoding :=
  snd (TransformTo c_desired pool ib).

(** The lengths that the length field of a name can hold. *)
Definition name_length_representable (v : Z) : Prop :=
  exists d, d ∈ [Val 0; Bits 4; BitsOffset 5 16; BitsOffset 10 48]
            /\ distr_contains d v = true.

(** The length field of a name as a bit stream: the two selector bits,
    then the payload of the variant. *)
Definition name_length_bits (v : Z) : list bool :=
  if v =? 0 then bits_of 2 0
  else if v <? 16 then bits_of 2 1 ++ bits_of 4 v
  else if v <? 48 then bits_of 2 2 ++ bits_of 5 (v - 16)
  else bits_of 2 3 ++ bits_of 10 (v - 48).

(** The characters of a name as a bit stream: eight bits each. *)
Definition name_bits (name : list Z) : list bool :=
  concat (map (fun ch => bits_of 8 (char_to_uint32 ch)) name).

(** The characters that [char] holds and that an 8-bit field carries. *)
Definition char_encodable (char_is_signed : bool) (ch : Z) : Prop :=
  0 <= ch < (if char_is_signed then 128 else 256).

(** A descriptor with its three channel modes, each one of the four
    modes. *)
Definition modes_valid (s : YCbCrChromaSubsampling.t) : Prop :=
  exists a b c,
    YCbCrChromaSubsampling.channel_mode_ s = [a; b; c]
    /\ 0 <= a < 4 /\ 0 <= b < 4 /\ 0 <= c < 4.

(** The six bits of the three channel modes. *)
Definition mode_bits (s : YCbCrChromaSubsampling.t) : list bool :=
  concat (map (bits_of 2) (YCbCrChromaSubsampling.channel_mode_ s)).

(** Bit [i] of a flag word. *)
Definition flag_bit (flags : Z) (i : Z) : bool := Z.testbit flags i.

(** The values of an 8-bit field, and the values of a [char]: -128 to 127
    where [char] is signed, 0 to 255 where it is not. *)
Definition is_byte (b : Z) : Prop := 0 <= b < 256.

Definition is_char (char_is_signed : bool) (ch : Z) : Prop :=
  if char_is_signed then -128 <= ch < 128 else 0 <= ch < 256.

(** A list of bytes as a bit stream: eight bits each. *)
Definition byte_bits (bytes : list Z) : list bool :=
  concat (map (bits_of 8) bytes).

(** A character whose widening to [uint32_t] fits an 8-bit field. *)
Definition fits_8_bits (ch : Z) : bool := char_to_uint32 ch <? 256.

(** The length that [VisitNameString] codes for a name:
    [static_cast<uint32_t>(name->length())]. *)
Definition written_length (name : list Z) : nat :=
  Z.to_nat (Z.of_nat (length name) mod two32).

(** ** Example values *)

Definition example_metadata : ImageMetadata.t :=
  ImageMetadata.mk 1000 600 (ImageMetadata.mkPreview 100 50)
    (ImageMetadata.mkM2 false).

(** A DC frame of level 2 without an explicit width, in a 1000 x 600
    image: the width starts from the image, the height from the frame. *)
Definition example_header : FrameHeader.t :=
  {| FrameHeader.all_default := false; FrameHeader.encoding := kVarDCT; FrameHeader.frame_type := kDCFrame;
     FrameHeader.flags := 0; FrameHeader.color_transform := kXYB;
     FrameHeader.chroma_subsampling := YCbCrChromaSubsampling.mk [0; 0; 0] 0 0;
     FrameHeader.group_size_shift := 1; FrameHeader.x_qm_scale := 2; FrameHeader.name := [];
     FrameHeader.passes := mkPasses 1 0 [] [] [];
     FrameHeader.custom_size_or_origin := false; FrameHeader.frame_size := mkFrameSize 0 100;
     FrameHeader.upsampling := 1; FrameHeader.extra_channel_upsampling := [];
     FrameHeader.frame_origin := mkFrameOrigin 0 0;
     FrameHeader.blending_info := mkBlendingInfo kReplace 0 false 0 false false;
     FrameHeader.extra_channel_blending_info := [];
     FrameHeader.animation_frame := mkAnimationFrame 0 0 None;
     FrameHeader.is_last := false; FrameHeader.save_as_reference := 0;
     FrameHeader.save_before_color_transform := true; FrameHeader.dc_level := 2;
     FrameHeader.nonserialized_image_metadata :=
       Some example_metadata;
     FrameHeader.nonserialized_is_preview := false; FrameHeader.extensions := 0 |}.


(** A codec object as its constructor leaves it, with [unit] for the color
    encoding. *)
Definition example_io : CodecInOut.t unit :=
  CodecInOut.new (mkCodecMetadata example_metadata) tt
    (YCbCrChromaSubsampling.mk [0; 0; 0] 0 0) 90.

(** A bundle with a 640 x 480 transcoded payload, an 8 x 8 color image
    and one 4 x 4 extra channel; the same bundle without the payload;
    a bundle with extra channels only; an empty bundle. *)
Definition example_bundle (jpeg : option JPEGData) (color : Image3F)
    (extra : list ImageU) : ImageBundle.t unit :=
  {| ImageBundle.jpeg_data := jpeg;
     ImageBundle.color_transform := kYCbCr;
     ImageBundle.chroma_subsampling := YCbCrChromaSubsampling.mk [0; 1; 0] 1 1;
     ImageBundle.origin := mkFrameOrigin 3 (-4);
     ImageBundle.duration := 7;
     ImageBundle.use_for_next_frame := true;
     ImageBundle.blend := true;
     ImageBundle.metadata_ := Some example_metadata;
     ImageBundle.color_ := color;
     ImageBundle.c_current_ := tt;
     ImageBundle.extra_channels_ := extra;
     ImageBundle.decoded_bytes_ := 1234 |}.

(** A stand-in for [ImageBundle::TransformTo] that fails on a bundle of
    duration 13 and marks every bundle it is called on, and a codec object
    with a declared preview and three frames, the second of duration 13. *)
Definition example_transform (_ : unit) (_ : option unit)
    (ib : ImageBundle.t unit) : Status * ImageBundle.t unit :=
  (negb (ImageBundle.duration ib =? 13), ImageBundle.SetDecodedBytes ib 1).

Definition example_frame (d : Z) (decoded : Z) : ImageBundle.t unit :=
  {| ImageBundle.jpeg_data := None;
     ImageBundle.color_transform := kNone;
     ImageBundle.chroma_subsampling := YCbCrChromaSubsampling.mk [0; 0; 0] 0 0;
     ImageBundle.origin := mkFrameOrigin 0 0;
     ImageBundle.duration := d;
     ImageBundle.use_for_next_frame := false;
     ImageBundle.blend := false;
     ImageBundle.metadata_ := None;
     ImageBundle.color_ := Image3F_empty;
     ImageBundle.c_current_ := tt;
     ImageBundle.extra_channels_ := [];
     ImageBundle.decoded_bytes_ := decoded |}.

Definition example_animation : CodecInOut.t unit :=
  {| CodecInOut.dec_max_xsize := 4096;
     CodecInOut.dec_max_ysize := 4096;
     CodecInOut.dec_max_pixels := 1000000;
     CodecInOut.dec_hints := [];
     CodecInOut.dec_target := kPixels;
     CodecInOut.dec_pixels := 0;
     CodecInOut.metadata :=
       mkCodecMetadata
         (ImageMetadata.mk 1000 600 (ImageMetadata.mkPreview 100 50)
            (ImageMetadata.mkM2 true));
     CodecInOut.preview_frame := example_frame 0 0;
     CodecInOut.frames := [example_frame 1 0; example_frame 13 0; example_frame 2 0];
     CodecInOut.use_sjpeg := false;
     CodecInOut.jpeg_quality := 90 |}.

Definition example_jpeg : JPEGData := mkJPEGData 640 480 [].
Definition example_color : Image3F := mkImage3F 8 8 [].
Definition example_extra : ImageU := mkImageU 4 4 [].

(** * Properties *)

(** ** Chroma subsampling *)

Module YCbCrChromaSubsamplingFacts.
Import YCbCrChromaSubsampling.

Lemma find_mode_pattern (h v : Z) :
  find_mode 4 0 h v =
  match sampling_pattern h v with Some i => i | None => 4%nat end.
Proof.
  unfold sampling_pattern, find_mode, kHShift, kVShift; cbn.
  change (Z.shiftl 1 0) with 1; change (Z.shiftl 1 1) with 2.
  destruct (Z.eqb_spec 1 h), (Z.eqb_spec 2 h), (Z.eqb_spec 1 v),
    (Z.eqb_spec 2 v), (Z.eqb_spec h 1), (Z.eqb_spec h 2), (Z.eqb_spec v 1),
    (Z.eqb_spec v 2); cbn; first [reflexivity | lia].
Qed.

Lemma sampling_pattern_bound (h v : Z) (i : nat) :
  sampling_pattern h v = Some i -> (i < 4)%nat.
Proof.
  unfold sampling_pattern.
  repeat match goal with
         | |- context [if ?b then _ else _] => destruct b
         end; intros [= <-]; lia.
Qed.

(** One step of the outer loop of [Set]. *)
Lemma Set_loop_step (n c : nat) (hs vs : list Z) (s : t) :
  Set_loop (S n) c hs vs s =
  match sampling_pattern (hs !!! cjpeg c) (vs !!! cjpeg c) with
  | Some i => Set_loop n (S c) hs vs (set_channel_mode s c (Z.of_nat i))
  | None => (false, s)
  end.
Proof.
  cbn [Set_loop]. rewrite find_mode_pattern.
  destruct (sampling_pattern _ _) as [i|] eqn:E; [|reflexivity].
  apply sampling_pattern_bound in E.
  destruct (Nat.eqb_spec i 4); [lia | reflexivity].
Qed.

(** What [Is420] accepts are the modes (1, 0, 1); with these modes the
    middle channel, the luma of the codestream order, is the one that
    [HShift] and [VShift] report as subsampled. *)
Lemma Is420_modes (a b c mh mv : Z) :
  Is420 (mk [a; b; c] mh mv) = true <-> a = 1 /\ b = 0 /\ c = 1.
Proof.
  unfold Is420; cbn.
  rewrite !andb_true_iff, !Z.eqb_eq. tauto.
Qed.

Lemma Is420_shifts (mh mv : Z) :
  let s := Recompute (mk [1; 0; 1] mh mv) in
  (HShift s 0, VShift s 0) = (0, 0) /\ (HShift s 1, VShift s 1) = (1, 1)
  /\ (HShift s 2, VShift s 2) = (0, 0).
Proof. cbn. repeat split. Qed.

(** C1. [Set] with the JPEG-order sampling factors {2,1,1} and {2,1,1}
    succeeds and stores the modes (0, 1, 0) with both maximal shifts 1:
    the two chroma channels are shifted by one in each direction and the
    luma channel is not, which is the 4:2:0 layout. On this state
    [Is444] is false, and [Is420] is false as well, since it looks for
    the modes (1, 0, 1). *)
Theorem Set_jpeg420_Is420_false (a b c mh mv : Z) :
  let r := Set_ (mk [a; b; c] mh mv) [2; 1; 1] [2; 1; 1] in
  r = (true, mk [0; 1; 0] 1 1)
  /\ Is420 (snd r) = false
  /\ Is444 (snd r) = false
  /\ (HShift (snd r) 0, VShift (snd r) 0) = (1, 1)
  /\ (HShift (snd r) 1, VShift (snd r) 1) = (0, 0)
  /\ (HShift (snd r) 2, VShift (snd r) 2) = (1, 1).
Proof. cbn. repeat split. Qed.

(** C9. [Set] is not atomic on failure. When the sampling pair of some
    channel [c] is none of the four patterns, [Set] fails; the cached
    maximal shifts are those from before the call; every channel that,
    with all channels before it, has a known pattern holds the mode of
    its pattern; the channels from [c] on hold what they held. *)
Theorem Set_failure_partial_update (s : t) (hs vs : list Z) (c : nat) :
  length (channel_mode_ s) = 3%nat ->
  (c < 3)%nat ->
  sampling_pattern (hs !!! cjpeg c) (vs !!! cjpeg c) = None ->
  let r := Set_ s hs vs in
  fst r = false
  /\ maxhs_ (snd r) = maxhs_ s /\ maxvs_ (snd r) = maxvs_ s
  /\ (forall c0 i,
        (forall c', (c' < c0)%nat ->
           sampling_pattern (hs !!! cjpeg c') (vs !!! cjpeg c') <> None) ->
        sampling_pattern (hs !!! cjpeg c0) (vs !!! cjpeg c0) = Some i ->
        channel_mode_ (snd r) !!! c0 = Z.of_nat i)
  /\ (forall c0, (c <= c0)%nat ->
        channel_mode_ (snd r) !!! c0 = channel_mode_ s !!! c0).
Proof.
  intros Hlen Hc Hnone r.
  destruct s as [modes mh mv]; cbn in Hlen.
  destruct modes as [|m0 [|m1 [|m2 [|? ?]]]]; try discriminate.
  subst r; unfold Set_.
  assert (Hfirst : forall c0 i,
    (forall c', (c' < c0)%nat ->
       sampling_pattern (hs !!! cjpeg c') (vs !!! cjpeg c') <> None) ->
    sampling_pattern (hs !!! cjpeg c0) (vs !!! cjpeg c0) = Some i ->
    (c0 < c)%nat).
  { intros c0 i Hall Hsome.
    destruct (Nat.lt_trichotomy c0 c) as [?|[->|Hgt]]; [assumption|congruence|].
    exfalso; exact (Hall c Hgt Hnone). }
  rewrite Set_loop_step.
  destruct (sampling_pattern (hs !!! cjpeg 0) (vs !!! cjpeg 0)) as [i0|] eqn:E0.
  2:{ cbn. split; [|split; [|split; [|split]]]; try reflexivity.
      intros c0 i Hall Hsome. pose proof (Hfirst c0 i Hall Hsome) as Hlt.
      exfalso. destruct c0 as [|c0]; [congruence|].
      apply (Hall 0%nat); [lia | assumption]. }
  rewrite Set_loop_step.
  destruct (sampling_pattern (hs !!! cjpeg 1) (vs !!! cjpeg 1)) as [i1|] eqn:E1.
  2:{ cbn. split; [|split; [|split; [|split]]]; try reflexivity.
      - intros c0 i Hall Hsome.
        destruct c0 as [|[|c0]]; [cbn; congruence | congruence |].
        exfalso. apply (Hall 1%nat); [lia | assumption].
      - intros c0 Hle.
        destruct c as [|c]; [congruence|].
        destruct c0 as [|c0]; [lia | reflexivity]. }
  rewrite Set_loop_step.
  destruct (sampling_pattern (hs !!! cjpeg 2) (vs !!! cjpeg 2)) as [i2|] eqn:E2.
  2:{ cbn. split; [|split; [|split; [|split]]]; try reflexivity.
      - intros c0 i Hall Hsome.
        destruct c0 as [|[|[|c0]]];
          [cbn; congruence | cbn; congruence | congruence |].
        exfalso. apply (Hall 2%nat); [lia | assumption].
      - intros c0 Hle.
        destruct c as [|[|c]]; [congruence | congruence |].
        destruct c0 as [|[|c0]]; [lia | lia | reflexivity]. }
  exfalso. destruct c as [|[|[|c]]]; [congruence | congruence | congruence | lia].
Qed.

Lemma Set_failure_partial_update_witness :
  let s := mk [0; 0; 0] 0 0 in
  let hs := [2; 1; 3] in
  let vs := [2; 1; 1] in
  (length (channel_mode_ s) = 3%nat /\ (2 < 3)%nat
   /\ sampling_pattern (hs !!! cjpeg 2) (vs !!! cjpeg 2) = None)
  /\ (let r := Set_ s hs vs in
      fst r = false
      /\ maxhs_ (snd r) = maxhs_ s /\ maxvs_ (snd r) = maxvs_ s
      /\ (forall c0 i,
            (forall c', (c' < c0)%nat ->
               sampling_pattern (hs !!! cjpeg c') (vs !!! cjpeg c') <> None) ->
            sampling_pattern (hs !!! cjpeg c0) (vs !!! cjpeg c0) = Some i ->
            channel_mode_ (snd r) !!! c0 = Z.of_nat i)
      /\ (forall c0, (2 <= c0)%nat ->
            channel_mode_ (snd r) !!! c0 = channel_mode_ s !!! c0)).
Proof.
  cbv zeta.
  split; [split; [reflexivity | split; [lia | reflexivity]] |].
  apply Set_failure_partial_update; [reflexivity | lia | reflexivity].
Defined.

(** The state that this failed call leaves is not one that [Recompute]
    would leave: the luma mode says shift 1, the cached maximum 0. *)
Example Set_failure_stale_cache :
  let s' := snd (Set_ (mk [0; 0; 0] 0 0) [2; 1; 3] [2; 1; 1]) in
  s' = mk [0; 1; 0] 0 0 /\ MaxHShift s' = 0 /\ MaxHShift (Recompute s') = 1.
Proof. cbn. repeat split. Qed.

End YCbCrChromaSubsamplingFacts.

(** ** Frame header *)

Module FrameHeaderFacts.
Import FrameHeader.

Lemma FrameType_eqb_eq (a b : FrameType) : FrameType_eqb a b = true <-> a = b.
Proof. destruct a, b; cbn; split; congruence. Qed.

(** C2. [CanBeReferenced] holds exactly of a frame that is not the last
    one, is not a DC frame, and has duration zero or a nonzero
    [save_as_reference]. *)
Theorem CanBeReferenced_iff (h : t) :
  CanBeReferenced h = true <->
  is_last h = false
  /\ frame_type h <> kDCFrame
  /\ (duration (animation_frame h) = 0 \/ save_as_reference h <> 0).
Proof.
  unfold CanBeReferenced.
  destruct (is_last h); cbn; [intuition discriminate|].
  destruct (frame_type h); cbn;
    destruct (Z.eqb_spec (duration (animation_frame h)) 0);
    destruct (Z.eqb_spec (save_as_reference h) 0); cbn;
    intuition (discriminate || congruence).
Qed.

Lemma dc_divisor_pow8 (h : t) :
  0 <= dc_level h <= 10 -> dc_divisor h = 8 ^ dc_level h.
Proof.
  intros Hd. unfold dc_divisor, two32.
  rewrite Z.mod_small by lia.
  rewrite Z.shiftl_1_l, Z.pow_mul_r by lia. reflexivity.
Qed.

Lemma DivCeil_rounded_up (a b : Z) :
  0 < b -> is_div_rounded_up (DivCeil a b) a b.
Proof.
  intros Hb. unfold is_div_rounded_up, DivCeil.
  pose proof (Z.div_mod (a + b - 1) b ltac:(lia)) as Hdm.
  pose proof (Z.mod_pos_bound (a + b - 1) b Hb) as Hr.
  lia.
Qed.

Lemma rounded_up_unique (q q' a b : Z) :
  0 < b -> is_div_rounded_up q a b -> is_div_rounded_up q' a b -> q = q'.
Proof. unfold is_div_rounded_up. intros Hb Hq Hq'. nia. Qed.

Lemma default_xsize_start (h : t) (md : ImageMetadata.t) :
  nonserialized_image_metadata h = Some md ->
  (if fs_xsize (frame_size h) =? 0 then default_xsize h
   else fs_xsize (frame_size h)) =
  start_size (fs_xsize (frame_size h)) (ImageMetadata.xsize md)
    (ImageMetadata.preview_xsize (ImageMetadata.nonserialized_preview md))
    (nonserialized_is_preview h).
Proof.
  intros Hm. unfold start_size, default_xsize. rewrite Hm.
  destruct (Z.eqb_spec (fs_xsize (frame_size h)) 0), (decide _);
    try reflexivity; contradiction.
Qed.

Lemma default_ysize_start (h : t) (md : ImageMetadata.t) :
  nonserialized_image_metadata h = Some md ->
  (if fs_ysize (frame_size h) =? 0 then default_ysize h
   else fs_ysize (frame_size h)) =
  start_size (fs_ysize (frame_size h)) (ImageMetadata.ysize md)
    (ImageMetadata.preview_ysize (ImageMetadata.nonserialized_preview md))
    (nonserialized_is_preview h).
Proof.
  intros Hm. unfold start_size, default_ysize. rewrite Hm.
  destruct (Z.eqb_spec (fs_ysize (frame_size h)) 0), (decide _);
    try reflexivity; contradiction.
Qed.

(** Without metadata the default size is zero. *)
Lemma default_size_nullptr (h : t) :
  nonserialized_image_metadata h = None ->
  default_xsize h = 0 /\ default_ysize h = 0.
Proof. intros Hm. unfold default_xsize, default_ysize. rewrite Hm. auto. Qed.

Section ToFrameDimensionsFacts.
Context {FrameDimensions : Type}.
Variable FrameDimensions_Set : Z -> Z -> Z -> Z -> Z -> Z -> FrameDimensions.

(** C4. The dimensions that [ToFrameDimensions] passes on start, each,
    from the component of [frame_size] when it is nonzero, and
    otherwise from the size of the metadata: the preview size for a
    preview header, the image size for any other. With [dc_level]
    zero these are the dimensions; with [dc_level] [d] nonzero each is
    divided by [8 ^ d], rounded up. *)
Theorem ToFrameDimensions_effective_size (h : t) (md : ImageMetadata.t) :
  nonserialized_image_metadata h = Some md ->
  0 <= dc_level h <= 10 ->
  let start_x :=
    start_size (fs_xsize (frame_size h)) (ImageMetadata.xsize md)
      (ImageMetadata.preview_xsize (ImageMetadata.nonserialized_preview md))
      (nonserialized_is_preview h) in
  let start_y :=
    start_size (fs_ysize (frame_size h)) (ImageMetadata.ysize md)
      (ImageMetadata.preview_ysize (ImageMetadata.nonserialized_preview md))
      (nonserialized_is_preview h) in
  exists xsize ysize,
    ToFrameDimensions FrameDimensions_Set h =
      FrameDimensions_Set xsize ysize (group_size_shift h)
        (YCbCrChromaSubsampling.MaxHShift (chroma_subsampling h))
        (YCbCrChromaSubsampling.MaxVShift (chroma_subsampling h))
        (upsampling h)
    /\ (dc_level h = 0 -> xsize = start_x /\ ysize = start_y)
    /\ (dc_level h <> 0 ->
        is_div_rounded_up xsize start_x (8 ^ dc_level h)
        /\ is_div_rounded_up ysize start_y (8 ^ dc_level h)).
Proof.
  intros Hm Hd start_x start_y.
  unfold ToFrameDimensions.
  rewrite (default_xsize_start h md Hm), (default_ysize_start h md Hm).
  fold start_x start_y.
  destruct (Z.eqb_spec (dc_level h) 0) as [Hz|Hnz]; cbn [negb].
  - exists start_x, start_y. split; [reflexivity|]. split; [auto | contradiction].
  - exists (DivCeil start_x (dc_divisor h)), (DivCeil start_y (dc_divisor h)).
    split; [reflexivity|]. split; [contradiction|]. intros _.
    rewrite (dc_divisor_pow8 h Hd).
    split; apply DivCeil_rounded_up; apply Z.pow_pos_nonneg; lia.
Qed.
End ToFrameDimensionsFacts.

Lemma ToFrameDimensions_effective_size_witness :
  let set := fun x y (_ _ _ _ : Z) => (x, y) in
  (nonserialized_image_metadata example_header = Some example_metadata
   /\ 0 <= dc_level example_header <= 10)
  /\ exists xsize ysize,
       ToFrameDimensions set example_header = (xsize, ysize)
       /\ (dc_level example_header = 0 -> xsize = 1000 /\ ysize = 100)
       /\ (dc_level example_header <> 0 ->
           is_div_rounded_up xsize 1000 (8 ^ 2)
           /\ is_div_rounded_up ysize 100 (8 ^ 2)).
Proof.
  cbv zeta. split; [split; [reflexivity | cbn; lia] |].
  exact (ToFrameDimensions_effective_size
           (fun x y (_ _ _ _ : Z) => (x, y)) example_header _
           eq_refl (conj (Zle_bool_imp_le 0 2 eq_refl)
                         (Zle_bool_imp_le 2 10 eq_refl))).
Defined.

Example ToFrameDimensions_example :
  ToFrameDimensions (fun x y (_ _ _ _ : Z) => (x, y)) example_header = (16, 2).
Proof. reflexivity. Qed.

End FrameHeaderFacts.

(** ** Codec input and output *)

Module CodecInOutFacts.
Import CodecInOut.

Section VerifyDimensionsFacts.
Context {ColorEncoding : Type}.
Implicit Type io : CodecInOut.t ColorEncoding.

(** Below the two 32-bit limits the 64-bit product does not wrap. *)
Lemma num_pixels_exact io (xs ys : Z) :
  dec_max_xsize io < two32 -> dec_max_ysize io < two32 ->
  0 <= xs <= dec_max_xsize io -> 0 <= ys <= dec_max_ysize io ->
  (xs * ys) mod two64 = xs * ys.
Proof.
  unfold two32, two64. intros Hx Hy Hxs Hys.
  apply Z.mod_small. nia.
Qed.

Lemma VerifyDimensions_false_iff io (xs ys : Z) :
  dec_max_xsize io < two32 -> dec_max_ysize io < two32 ->
  0 <= xs -> 0 <= ys ->
  VerifyDimensions io xs ys = false <->
  xs = 0 \/ ys = 0 \/ xs > dec_max_xsize io \/ ys > dec_max_ysize io
  \/ xs * ys > dec_max_pixels io.
Proof.
  intros Hx Hy Hxs Hys. unfold VerifyDimensions, JXL_FAILURE.
  destruct (Z.eqb_spec xs 0) as [->|Hx0]; cbn [orb]; [tauto|].
  destruct (Z.eqb_spec ys 0) as [->|Hy0]; cbn [orb]; [tauto|].
  rewrite !Z.gtb_ltb.
  destruct (Z.ltb_spec (dec_max_xsize io) xs); [intuition lia|].
  destruct (Z.ltb_spec (dec_max_ysize io) ys); [intuition lia|].
  rewrite (num_pixels_exact io) by lia.
  destruct (Z.ltb_spec (dec_max_pixels io) (xs * ys));
    intuition (lia || discriminate).
Qed.

(** C3. [VerifyDimensions] fails exactly when a dimension is zero, a
    dimension is above its limit, or the product of the two is above
    the pixel limit, and succeeds otherwise. In particular (0, 100),
    (100, 0) and (dec_max_xsize + 1, 100) fail, and (1, 1) succeeds
    under the default limits. *)
Theorem VerifyDimensions_spec io (xs ys : Z) :
  dec_max_xsize io < two32 -> dec_max_ysize io < two32 ->
  0 <= xs -> 0 <= ys ->
  (VerifyDimensions io xs ys = false <->
   xs = 0 \/ ys = 0 \/ xs > dec_max_xsize io \/ ys > dec_max_ysize io
   \/ xs * ys > dec_max_pixels io)
  /\ (VerifyDimensions io xs ys = true <->
      xs <> 0 /\ ys <> 0 /\ xs <= dec_max_xsize io
      /\ ys <= dec_max_ysize io /\ xs * ys <= dec_max_pixels io)
  /\ VerifyDimensions io 0 100 = false
  /\ VerifyDimensions io 100 0 = false
  /\ VerifyDimensions io (dec_max_xsize io + 1) 100 = false
  /\ (dec_max_xsize io = dec_max_xsize_init ->
      dec_max_ysize io = dec_max_ysize_init ->
      dec_max_pixels io = dec_max_pixels_init ->
      VerifyDimensions io 1 1 = true).
Proof.
  intros Hx Hy Hxs Hys.
  pose proof (VerifyDimensions_false_iff io xs ys Hx Hy Hxs Hys) as Hf.
  split; [exact Hf|]. split.
  { rewrite <- not_false_iff_true, Hf. lia. }
  split; [reflexivity|]. split; [reflexivity|]. split.
  { unfold VerifyDimensions, JXL_FAILURE.
    destruct (Z.eqb_spec (dec_max_xsize io + 1) 0); cbn [orb]; [reflexivity|].
    rewrite Z.gtb_ltb.
    destruct (Z.ltb_spec (dec_max_xsize io) (dec_max_xsize io + 1));
      [reflexivity | lia]. }
  intros Ex Ey Ep. unfold VerifyDimensions. rewrite Ex, Ey, Ep. reflexivity.
Qed.
End VerifyDimensionsFacts.


Lemma VerifyDimensions_spec_witness :
  (dec_max_xsize example_io < two32 /\ dec_max_ysize example_io < two32
   /\ 0 <= 3 /\ 0 <= 5)
  /\ (VerifyDimensions example_io 3 5 = false <->
      3 = 0 \/ 5 = 0 \/ 3 > dec_max_xsize example_io
      \/ 5 > dec_max_ysize example_io \/ 3 * 5 > dec_max_pixels example_io)
  /\ (VerifyDimensions example_io 3 5 = true <->
      3 <> 0 /\ 5 <> 0 /\ 3 <= dec_max_xsize example_io
      /\ 5 <= dec_max_ysize example_io /\ 3 * 5 <= dec_max_pixels example_io)
  /\ VerifyDimensions example_io 0 100 = false
  /\ VerifyDimensions example_io 100 0 = false
  /\ VerifyDimensions example_io (dec_max_xsize example_io + 1) 100 = false
  /\ (dec_max_xsize example_io = dec_max_xsize_init ->
      dec_max_ysize example_io = dec_max_ysize_init ->
      dec_max_pixels example_io = dec_max_pixels_init ->
      VerifyDimensions example_io 1 1 = true).
Proof.
  split; [repeat split; (reflexivity || discriminate) |].
  apply (VerifyDimensions_spec example_io 3 5);
    (reflexivity || discriminate).
Defined.

Section TransformToFacts.
Context {ColorEncoding ThreadPool : Type}.
Variable ImageBundle_TransformTo :
  ColorEncoding -> option ThreadPool -> ImageBundle.t ColorEncoding ->
  Status * ImageBundle.t ColorEncoding.
Variable c_desired : ColorEncoding.
Variable pool : option ThreadPool.

Local Abbreviation succeeds :=
  (transform_succeeds ImageBundle_TransformTo c_desired pool).
Local Abbreviation after :=
  (transform_result ImageBundle_TransformTo c_desired pool).

(** The loop over a list of bundles: it runs to its end exactly when
    every call succeeds, and then every bundle is transformed; on a
    failure the bundles up to the first failing one are transformed
    and the later ones are as they were. *)
Lemma TransformTo_frames_spec (fs : list (ImageBundle.t ColorEncoding)) :
  let r := TransformTo_frames ImageBundle_TransformTo c_desired pool fs in
  (fst r = true <-> Forall succeeds fs)
  /\ (fst r = true -> snd r = map after fs)
  /\ (fst r = false ->
      exists pre x post,
        fs = pre ++ x :: post /\ Forall succeeds pre /\ ~ succeeds x
        /\ snd r = map after pre ++ after x :: post).
Proof.
  induction fs as [|ib rest IH]; cbn [TransformTo_frames].
  - cbn. split; [split; auto|]. split; [auto | discriminate].
  - cbn zeta in IH. unfold transform_succeeds, transform_result in *.
    destruct (ImageBundle_TransformTo c_desired pool ib) as [ok ib'] eqn:E.
    destruct ok.
    + destruct (TransformTo_frames _ c_desired pool rest) as [ok_rest rest'].
      cbn [fst snd] in *. destruct IH as (IH1 & IH2 & IH3).
      split; [|split].
      * rewrite IH1. split; intros H.
        -- constructor; [rewrite E; reflexivity | assumption].
        -- inversion H; assumption.
      * intros Hok. cbn [map]. rewrite E. cbn [snd]. f_equal. auto.
      * intros Hok. destruct (IH3 Hok) as (pre & x & post & -> & Hpre & Hx & Hr).
        exists (ib :: pre), x, post. split; [reflexivity|].
        split; [constructor; [rewrite E; reflexivity | assumption]|].
        split; [assumption|]. cbn [map app]. rewrite E. cbn [snd].
        f_equal. assumption.
    + cbn [fst snd]. split; [|split].
      * split; [discriminate|]. intros H. inversion H as [|? ? H1 H2].
        rewrite E in H1. discriminate.
      * discriminate.
      * intros _. exists [], ib, rest. split; [reflexivity|].
        split; [constructor|]. rewrite E. cbn. split; [discriminate | reflexivity].
Qed.

(** C6. [CodecInOut::TransformTo] transforms the preview, when the
    metadata declares one, and then the frames in order. It succeeds
    exactly when every one of these calls succeeds, and then each of
    these bundles is the transformed one. When it fails, the bundles
    before the first failing one are transformed, the failing one is
    as its call left it, and every later bundle is as it was. A
    preview that is not declared is never touched, and nothing but
    the preview and the frames changes. *)
Theorem TransformTo_first_failure (io : CodecInOut.t ColorEncoding) :
  let r := TransformTo ImageBundle_TransformTo io c_desired pool in
  (fst r = true <-> Forall succeeds (transform_targets io))
  /\ (fst r = true ->
      transform_targets (snd r) = map after (transform_targets io))
  /\ (fst r = false ->
      exists pre x post,
        transform_targets io = pre ++ x :: post
        /\ Forall succeeds pre /\ ~ succeeds x
        /\ transform_targets (snd r) = map after pre ++ after x :: post)
  /\ (ImageMetadata.have_preview (ImageMetadata.m2 (m (metadata io))) = false ->
      preview_frame (snd r) = preview_frame io)
  /\ metadata (snd r) = metadata io
  /\ length (frames (snd r)) = length (frames io).
Proof.
  unfold TransformTo, transform_targets.
  pose proof (TransformTo_frames_spec (frames io)) as Hfs. cbn zeta in Hfs.
  destruct (ImageMetadata.have_preview _) eqn:Hprev.
  - unfold transform_succeeds, transform_result in *.
    destruct (ImageBundle_TransformTo c_desired pool (preview_frame io))
      as [ok p] eqn:E.
    destruct ok.
    + cbn [set_preview_frame frames] in *.
      destruct (TransformTo_frames _ c_desired pool (frames io)) as [ok fs'].
      cbn [fst snd set_frames metadata preview_frame frames set_preview_frame] in *.
      rewrite Hprev. destruct Hfs as (H1 & H2 & H3).
      split; [|split; [|split; [|split; [|split]]]].
      * rewrite H1. split; intros H.
        -- constructor; [rewrite E; reflexivity | assumption].
        -- inversion H; assumption.
      * intros Hok. cbn. rewrite E. cbn [snd]. f_equal. auto.
      * intros Hok. destruct (H3 Hok) as (pre & x & post & Hfr & Hpre & Hx & Hr).
        exists (preview_frame io :: pre), x, post. rewrite Hfr, Hr.
        split; [reflexivity|].
        split; [constructor; [rewrite E; reflexivity | assumption]|].
        split; [assumption|]. cbn. rewrite E. reflexivity.
      * discriminate.
      * reflexivity.
      * destruct ok.
        -- rewrite (H2 eq_refl). apply length_map.
        -- destruct (H3 eq_refl) as (pre & x & post & Hfr & _ & _ & Hr).
           rewrite Hr, Hfr, !length_app. cbn. rewrite length_map. reflexivity.
    + cbn [fst snd set_preview_frame metadata preview_frame frames].
      rewrite Hprev.
      split; [|split; [|split; [|split; [|split]]]].
      * split; [discriminate|]. intros H. inversion H as [|? ? H1 H2].
        rewrite E in H1. discriminate.
      * discriminate.
      * intros _. exists [], (preview_frame io), (frames io).
        split; [reflexivity|]. split; [constructor|].
        rewrite E. cbn. split; [discriminate | reflexivity].
      * discriminate.
      * reflexivity.
      * reflexivity.
  - destruct (TransformTo_frames _ c_desired pool (frames io)) as [ok fs'].
    cbn [fst snd set_frames metadata preview_frame frames] in *.
    rewrite Hprev. cbn [app]. destruct Hfs as (H1 & H2 & H3).
    split; [exact H1|]. split; [exact H2|]. split; [exact H3|].
    split; [reflexivity|]. split; [reflexivity|].
    destruct ok.
    + rewrite (H2 eq_refl). apply length_map.
    + destruct (H3 eq_refl) as (pre & x & post & Hfr & _ & _ & Hr).
      rewrite Hr, Hfr, !length_app. cbn. rewrite length_map. reflexivity.
Qed.
End TransformToFacts.

(** The preview and the first frame are transformed, the second frame
    fails, and the third is not touched. *)
Example TransformTo_example :
  let r := TransformTo example_transform example_animation tt None in
  fst r = false
  /\ preview_frame (snd r) = example_frame 0 1
  /\ frames (snd r) = [example_frame 1 1; example_frame 13 1; example_frame 2 0].
Proof. cbn. repeat split. Qed.

(** Limits as a fuzzer sets them: 4096 x 4096 pixels at most a million. *)
Example VerifyDimensions_example :
  VerifyDimensions example_animation 1000 1000 = true
  /\ VerifyDimensions example_animation 1000 1001 = false
  /\ VerifyDimensions example_animation 4097 1 = false
  /\ VerifyDimensions example_animation 1 4097 = false.
Proof. repeat split. Qed.

End CodecInOutFacts.

(** ** Image bundle *)

Module ImageBundleFacts.
Import ImageBundle.

Section WithColorEncoding.
Context {ColorEncoding : Type}.
Variable ColorEncoding_init : ColorEncoding.
Variable YCbCrChromaSubsampling_init : YCbCrChromaSubsampling.t.
Implicit Type b : ImageBundle.t ColorEncoding.

(** C7. The size of a bundle is the declared size of its transcoded
    payload when it has one; otherwise, for each dimension, that of the
    color image when it is nonzero; otherwise that of the first extra
    channel when there is one; otherwise zero. *)
Theorem size_precedence b :
  (forall j, jpeg_data b = Some j ->
     xsize b = width j /\ ysize b = height j)
  /\ (jpeg_data b = None ->
      (i3_xsize (color_ b) <> 0 -> xsize b = i3_xsize (color_ b))
      /\ (i3_ysize (color_ b) <> 0 -> ysize b = i3_ysize (color_ b))
      /\ (forall plane rest, extra_channels_ b = plane :: rest ->
            (i3_xsize (color_ b) = 0 -> xsize b = iu_xsize plane)
            /\ (i3_ysize (color_ b) = 0 -> ysize b = iu_ysize plane))
      /\ (extra_channels_ b = [] ->
            (i3_xsize (color_ b) = 0 -> xsize b = 0)
            /\ (i3_ysize (color_ b) = 0 -> ysize b = 0))).
Proof.
  unfold xsize, ysize, IsJPEG, jpeg_width, jpeg_height.
  split.
  - intros j ->. split; reflexivity.
  - intros ->.
    destruct (Z.eqb_spec (i3_xsize (color_ b)) 0) as [Hx|Hx],
             (Z.eqb_spec (i3_ysize (color_ b)) 0) as [Hy|Hy]; cbn [negb];
      (split; [intros; (reflexivity || contradiction) |]);
      (split; [intros; (reflexivity || contradiction) |]);
      (split; [intros plane rest E | intros E]); try rewrite E;
      split; intros; (reflexivity || contradiction).
Qed.

Lemma Copy_extra_channels_app (planes acc : list ImageU) :
  Copy_extra_channels planes acc = acc ++ planes.
Proof.
  revert acc. induction planes as [|plane rest IH]; intros acc; cbn.
  - symmetry. apply app_nil_r.
  - rewrite IH. unfold CopyImage. rewrite <- app_assoc. reflexivity.
Qed.

(** C10. The copy of a bundle has the metadata, the color image, the
    current color encoding, the extra channels, the transcoded payload,
    the color transform and the chroma subsampling of its source; its
    origin is (0, 0), its duration 0, its two flags are false and its
    count of decoded bytes is 0, whatever the source holds. *)
Theorem Copy_fields b :
  let copy := Copy ColorEncoding_init YCbCrChromaSubsampling_init b in
  metadata_ copy = metadata_ b
  /\ color_ copy = color_ b
  /\ c_current_ copy = c_current_ b
  /\ extra_channels_ copy = extra_channels_ b
  /\ jpeg_data copy = jpeg_data b
  /\ color_transform copy = color_transform b
  /\ chroma_subsampling copy = chroma_subsampling b
  /\ origin copy = mkFrameOrigin 0 0
  /\ duration copy = 0
  /\ use_for_next_frame copy = false
  /\ blend copy = false
  /\ decoded_bytes_ copy = 0.
Proof.
  cbn. rewrite Copy_extra_channels_app. cbn.
  destruct (jpeg_data b); repeat split.
Qed.

End WithColorEncoding.

Lemma size_precedence_witness :
  (jpeg_data (example_bundle (Some example_jpeg) example_color [example_extra])
     = Some example_jpeg
   /\ xsize (example_bundle (Some example_jpeg) example_color [example_extra]) = 640
   /\ ysize (example_bundle (Some example_jpeg) example_color [example_extra]) = 480)
  /\ (jpeg_data (example_bundle None example_color [example_extra]) = None
      /\ xsize (example_bundle None example_color [example_extra]) = 8
      /\ ysize (example_bundle None example_color [example_extra]) = 8)
  /\ (jpeg_data (example_bundle None Image3F_empty [example_extra]) = None
      /\ xsize (example_bundle None Image3F_empty [example_extra]) = 4
      /\ ysize (example_bundle None Image3F_empty [example_extra]) = 4)
  /\ (jpeg_data (example_bundle None Image3F_empty []) = None
      /\ xsize (example_bundle None Image3F_empty []) = 0
      /\ ysize (example_bundle None Image3F_empty []) = 0).
Proof.
  split; [|split; [|split]].
  - split; [reflexivity|].
    exact (proj1 (size_precedence
                    (example_bundle (Some example_jpeg) example_color
                       [example_extra])) example_jpeg eq_refl).
  - split; [reflexivity|].
    destruct (proj2 (size_precedence
                       (example_bundle None example_color [example_extra]))
                eq_refl) as (Hx & Hy & _).
    split; [apply Hx | apply Hy]; discriminate.
  - split; [reflexivity|].
    destruct (proj2 (size_precedence
                       (example_bundle None Image3F_empty [example_extra]))
                eq_refl) as (_ & _ & Hextra & _).
    destruct (Hextra example_extra [] eq_refl) as (Hx & Hy).
    split; [apply Hx | apply Hy]; reflexivity.
  - split; [reflexivity|].
    destruct (proj2 (size_precedence (example_bundle None Image3F_empty []))
                eq_refl) as (_ & _ & _ & Hnone).
    destruct (Hnone eq_refl) as (Hx & Hy).
    split; [apply Hx | apply Hy]; reflexivity.
Defined.

(** The copy of the example bundle: the five members that [Copy] leaves
    out differ from the source's. *)
Example Copy_example :
  let b := example_bundle (Some example_jpeg) example_color [example_extra] in
  let copy := Copy tt (YCbCrChromaSubsampling.mk [0; 0; 0] 0 0) b in
  (origin b, duration b, use_for_next_frame b, blend b, decoded_bytes_ b)
    = (mkFrameOrigin 3 (-4), 7, true, true, 1234)
  /\ (origin copy, duration copy, use_for_next_frame copy, blend copy,
      decoded_bytes_ copy) = (mkFrameOrigin 0 0, 0, false, false, 0)
  /\ xsize copy = 640 /\ extra_channels_ copy = [example_extra].
Proof. cbn. repeat split. Qed.

End ImageBundleFacts.

(** ** Blending *)

(** C8. In mode [kBlend], on a channel that is not the alpha channel and
    with associated alpha, the blended sample is
    [(1 - new_alpha) * old + new]; for old 0.2, new 0.8 and new alpha 0.5
    it is 0.9. *)
Theorem blend_associated_alpha (old new old_alpha new_alpha : Q) :
  blend_sample kBlend false true old new old_alpha new_alpha
    = ((1 - new_alpha) * old + new)%Q
  /\ (blend_sample kBlend false true (2 # 10) (8 # 10) old_alpha (5 # 10)
        == 9 # 10)%Q
  /\ Qred (blend_sample kBlend false true (2 # 10) (8 # 10) old_alpha (5 # 10))
     = (9 # 10)%Q.
Proof. split; [reflexivity | split; reflexivity]. Qed.

(** ** Names *)

Module VisitNameStringFacts.

Lemma length_bits_of (n : nat) (v : Z) : length (bits_of n v) = n.
Proof. revert v. induction n as [|n IH]; intros v; cbn; [|rewrite IH]; reflexivity. Qed.

Lemma value_of_bits_of (n : nat) (v : Z) :
  0 <= v < 2 ^ Z.of_nat n -> value_of (bits_of n v) = v.
Proof.
  revert v. induction n as [|n IH]; intros v Hv.
  - cbn in *. lia.
  - cbn [bits_of value_of].
    rewrite Nat2Z.inj_succ, Z.pow_succ_r in Hv by lia.
    pose proof (Z.div2_odd v) as Hodd.
    rewrite IH; [lia|].
    destruct (Z.odd v); cbn [Z.b2z] in Hodd; lia.
Qed.

Lemma read_bits_bits_of (n : nat) (v : Z) (rest : list bool) :
  0 <= v < 2 ^ Z.of_nat n ->
  read_bits n (bits_of n v ++ rest) = Some (v, rest).
Proof.
  intros Hv. unfold read_bits.
  rewrite length_app, length_bits_of.
  destruct (Nat.ltb_spec (n + length rest) n); [lia|].
  rewrite take_app_length', drop_app_length' by (symmetry; apply length_bits_of).
  rewrite value_of_bits_of by assumption. reflexivity.
Qed.

Lemma write_bits_ok (n : nat) (v : Z) (s : list bool) :
  0 <= v < 2 ^ Z.of_nat n -> write_bits n v s = Some (v, s ++ bits_of n v).
Proof.
  intros Hv. unfold write_bits.
  destruct (Z.leb_spec 0 v), (Z.ltb_spec v (2 ^ Z.of_nat n)); cbn; (reflexivity || lia).
Qed.

(** The ranges of the four variants of the length field. *)
Lemma name_length_variants (v : Z) :
  (distr_contains (Val 0) v = true <-> v = 0)
  /\ (distr_contains (Bits 4) v = true <-> 0 <= v < 16)
  /\ (distr_contains (BitsOffset 5 16) v = true <-> 16 <= v < 48)
  /\ (distr_contains (BitsOffset 10 48) v = true <-> 48 <= v < 1072).
Proof.
  unfold distr_contains; cbn [distr_base distr_bits].
  change (2 ^ Z.of_nat 0) with 1. change (2 ^ Z.of_nat 4) with 16.
  change (2 ^ Z.of_nat 5) with 32. change (2 ^ Z.of_nat 10) with 1024.
  rewrite !andb_true_iff, !Z.leb_le, !Z.ltb_lt. lia.
Qed.

Lemma name_length_representable_iff (v : Z) :
  name_length_representable v <-> 0 <= v <= 1071.
Proof.
  pose proof (name_length_variants v) as (H0 & H1 & H2 & H3).
  unfold name_length_representable. split.
  - intros (d & Hd & Hc).
    repeat (apply elem_of_cons in Hd; destruct Hd as [->|Hd]);
      [apply H0 in Hc | apply H1 in Hc | apply H2 in Hc | apply H3 in Hc |
       apply elem_of_nil in Hd; contradiction]; lia.
  - intros Hv.
    destruct (Z.lt_ge_cases v 16); [|destruct (Z.lt_ge_cases v 48)].
    + exists (Bits 4). split; [|apply H1; lia].
      rewrite !elem_of_cons. auto.
    + exists (BitsOffset 5 16). split; [|apply H2; lia].
      rewrite !elem_of_cons. auto.
    + exists (BitsOffset 10 48). split; [|apply H3; lia].
      rewrite !elem_of_cons. auto.
Qed.

Lemma distr_contains_false (d : U32Distr) (v : Z) (P : Prop) :
  (distr_contains d v = true <-> P) -> ~ P -> distr_contains d v = false.
Proof. intros H HP. destruct (distr_contains d v); [tauto | reflexivity]. Qed.

Lemma write_U32_name_length (v : Z) (s : list bool) :
  0 <= v <= 1071 ->
  write_U32 (Val 0) (Bits 4) (BitsOffset 5 16) (BitsOffset 10 48) v s
  = Some (v, s ++ name_length_bits v).
Proof.
  intros Hv. pose proof (name_length_variants v) as (H0 & H1 & H2 & H3).
  unfold write_U32, name_length_bits, select_distr.
  destruct (Z.eqb_spec v 0) as [->|Hne].
  { rewrite (proj2 H0 eq_refl). unfold visit_bind, visit_ret.
    rewrite write_bits_ok by (cbn; lia). cbn [distr_bits distr_base].
    rewrite write_bits_ok by (cbn; lia). cbn [bits_of].
    rewrite app_nil_r. reflexivity. }
  rewrite (distr_contains_false _ _ _ H0 Hne).
  destruct (Z.ltb_spec v 16).
  { rewrite (proj2 H1) by lia. unfold visit_bind, visit_ret.
    rewrite write_bits_ok by (cbn; lia). cbn [distr_bits distr_base].
    rewrite write_bits_ok by (change (2 ^ Z.of_nat 4) with 16; lia).
    rewrite Z.sub_0_r, <- app_assoc. reflexivity. }
  rewrite (distr_contains_false _ _ _ H1) by lia.
  destruct (Z.ltb_spec v 48).
  { rewrite (proj2 H2) by lia. unfold visit_bind, visit_ret.
    rewrite write_bits_ok by (cbn; lia). cbn [distr_bits distr_base].
    rewrite write_bits_ok by (change (2 ^ Z.of_nat 5) with 32; lia).
    rewrite <- app_assoc. reflexivity. }
  rewrite (distr_contains_false _ _ _ H2) by lia.
  rewrite (proj2 H3) by lia. unfold visit_bind, visit_ret.
  rewrite write_bits_ok by (cbn; lia). cbn [distr_bits distr_base].
  rewrite write_bits_ok by (change (2 ^ Z.of_nat 10) with 1024; lia).
  rewrite <- app_assoc. reflexivity.
Qed.

Lemma write_U32_name_length_fails (v : Z) (s : list bool) :
  ~ 0 <= v <= 1071 ->
  write_U32 (Val 0) (Bits 4) (BitsOffset 5 16) (BitsOffset 10 48) v s = None.
Proof.
  intros Hv. pose proof (name_length_variants v) as (H0 & H1 & H2 & H3).
  unfold write_U32, select_distr.
  rewrite (distr_contains_false _ _ _ H0), (distr_contains_false _ _ _ H1),
    (distr_contains_false _ _ _ H2), (distr_contains_false _ _ _ H3) by lia.
  reflexivity.
Qed.

Lemma read_U32_name_length (v : Z) (rest : list bool) :
  0 <= v <= 1071 ->
  read_U32 (Val 0) (Bits 4) (BitsOffset 5 16) (BitsOffset 10 48)
    (name_length_bits v ++ rest) = Some (v, rest).
Proof.
  intros Hv. unfold read_U32, name_length_bits, visit_bind, visit_ret.
  destruct (Z.eqb_spec v 0) as [->|Hne]; [reflexivity|].
  destruct (Z.ltb_spec v 16); [|destruct (Z.ltb_spec v 48)];
    rewrite <- app_assoc, read_bits_bits_of by (cbn; lia);
    match goal with
    | |- context [?l !!! Z.to_nat ?k] =>
        let d := eval vm_compute in (l !!! Z.to_nat k) in
        change (l !!! Z.to_nat k) with d
    end; cbn [distr_bits distr_base].
  - rewrite read_bits_bits_of by (change (2 ^ Z.of_nat 4) with 16; lia).
    reflexivity.
  - rewrite read_bits_bits_of by (change (2 ^ Z.of_nat 5) with 32; lia).
    replace (16 + (v - 16)) with v by lia. reflexivity.
  - rewrite read_bits_bits_of by (change (2 ^ Z.of_nat 10) with 1024; lia).
    replace (48 + (v - 48)) with v by lia. reflexivity.
Qed.

Section Names.
Variable char_is_signed : bool.

Lemma char_encodable_uint32 (ch : Z) :
  char_encodable char_is_signed ch ->
  char_to_uint32 ch = ch /\ 0 <= ch < 2 ^ Z.of_nat 8
  /\ uint32_to_char char_is_signed ch = ch.
Proof.
  unfold char_encodable, char_to_uint32, uint32_to_char, two32.
  change (2 ^ Z.of_nat 8) with 256. intros Hc.
  assert (Hlt : 0 <= ch < 256) by (destruct char_is_signed; lia).
  split; [apply Z.mod_small; lia|]. split; [assumption|].
  rewrite (Z.mod_small ch 256) by assumption.
  destruct char_is_signed; cbn [andb]; [|reflexivity].
  destruct (Z.leb_spec 128 ch); [lia | reflexivity].
Qed.

Lemma name_bits_cons (ch : Z) (name : list Z) :
  name_bits (ch :: name) = bits_of 8 (char_to_uint32 ch) ++ name_bits name.
Proof. reflexivity. Qed.

Lemma length_name_bits (name : list Z) :
  length (name_bits name) = (8 * length name)%nat.
Proof.
  induction name as [|ch name IH]; [reflexivity|].
  rewrite name_bits_cons, length_app, length_bits_of, IH. cbn [length]. lia.
Qed.

(** Writing the characters from index [length pre] on: the name stays,
    the stream grows by the bits of these characters. *)
Lemma write_loop (suf pre : list Z) (s : list bool) :
  Forall (char_encodable char_is_signed) suf ->
  VisitNameString_loop char_is_signed WriteVisitor.WriteVisitor
    (length suf) (length pre) (pre ++ suf) s
  = Some (pre ++ suf, s ++ name_bits suf).
Proof.
  revert pre s. induction suf as [|ch suf IH]; intros pre s Hall.
  - cbn. unfold visit_ret. rewrite !app_nil_r. reflexivity.
  - inversion Hall as [|? ? Hch Hsuf]; subst.
    destruct (char_encodable_uint32 ch Hch) as (Hu & Hr & Hc).
    cbn [length VisitNameString_loop Visitor.Bits WriteVisitor.WriteVisitor].
    unfold visit_bind.
    rewrite list_lookup_total_middle by reflexivity.
    rewrite Hu, write_bits_ok by assumption. rewrite Hc.
    rewrite list_insert_id by (apply list_lookup_middle; reflexivity).
    rewrite name_bits_cons, Hu.
    replace (S (length pre)) with (length (pre ++ [ch]))
      by (rewrite length_app; cbn; lia).
    rewrite (cons_middle ch pre suf), !app_assoc.
    rewrite IH by assumption. reflexivity.
Qed.

(** Reading the characters from index [length pre] on: whatever the name
    held there is replaced by the characters of the stream. *)
Lemma read_loop (chars pre old : list Z) (rest : list bool) :
  length old = length chars ->
  Forall (char_encodable char_is_signed) chars ->
  VisitNameString_loop char_is_signed ReadVisitor
    (length chars) (length pre) (pre ++ old) (name_bits chars ++ rest)
  = Some (pre ++ chars, rest).
Proof.
  revert pre old. induction chars as [|ch chars IH]; intros pre old Hlen Hall.
  - destruct old; [|discriminate]. reflexivity.
  - destruct old as [|o old]; [discriminate|].
    inversion Hall as [|? ? Hch Hchars]; subst.
    destruct (char_encodable_uint32 ch Hch) as (Hu & Hr & Hc).
    cbn [length VisitNameString_loop Visitor.Bits ReadVisitor].
    unfold visit_bind.
    rewrite name_bits_cons, Hu, <- app_assoc, read_bits_bits_of by assumption.
    rewrite Hc.
    replace (length pre) with (length pre + 0)%nat at 2 by lia.
    rewrite insert_app_r. cbn [insert list_insert].
    replace (S (length pre)) with (length (pre ++ [ch]))
      by (rewrite length_app; cbn; lia).
    rewrite (cons_middle ch pre old), (cons_middle ch pre chars), !app_assoc.
    apply IH; [|assumption]. cbn in Hlen. lia.
Qed.

Lemma char_to_uint32_nonneg (ch : Z) : 0 <= char_to_uint32 ch.
Proof. unfold char_to_uint32, two32. apply Z.mod_pos_bound. lia. Qed.

Lemma name_bits_byte_bits (name : list Z) :
  name_bits name = byte_bits (map char_to_uint32 name).
Proof. unfold name_bits, byte_bits. rewrite map_map. reflexivity. Qed.

Lemma written_length_le (name : list Z) :
  (written_length name <= length name)%nat
  /\ Z.of_nat (written_length name) = Z.of_nat (length name) mod two32.
Proof.
  unfold written_length, two32.
  pose proof (Z.mod_pos_bound (Z.of_nat (length name)) (2 ^ 32) ltac:(lia)) as Hb.
  pose proof (Z.mod_le (Z.of_nat (length name)) (2 ^ 32) ltac:(lia) ltac:(lia)) as Hl.
  split; lia.
Qed.

Lemma written_length_small (name : list Z) :
  Z.of_nat (length name) < two32 -> written_length name = length name.
Proof.
  intros H. unfold written_length. rewrite Z.mod_small by lia. apply Nat2Z.id.
Qed.

Lemma forallb_fits_8_bits (l : list Z) :
  forallb fits_8_bits l = true <-> Forall (fun ch => char_to_uint32 ch < 256) l.
Proof.
  induction l as [|ch l IH]; cbn [forallb].
  - split; [constructor | reflexivity].
  - rewrite andb_true_iff, IH. unfold fits_8_bits at 1. rewrite Z.ltb_lt.
    split.
    + intros [H1 H2]. constructor; assumption.
    + intros H. inversion H; subst. split; assumption.
Qed.

(** Writing the characters [suf] that stand at index [length pre] on:
    every character is widened and written when it fits eight bits, and
    the first one that does not fit makes the call fail. *)
Lemma write_loop_gen (suf pre tail : list Z) (s : list bool) :
  VisitNameString_loop char_is_signed WriteVisitor.WriteVisitor
    (length suf) (length pre) (pre ++ suf ++ tail) s
  = if forallb fits_8_bits suf
    then Some (pre ++ map (fun ch => uint32_to_char char_is_signed
                                       (char_to_uint32 ch)) suf ++ tail,
               s ++ name_bits suf)
    else None.
Proof.
  revert pre s. induction suf as [|ch suf IH]; intros pre s.
  - cbn. unfold visit_ret. rewrite !app_nil_r. reflexivity.
  - cbn [length VisitNameString_loop Visitor.Bits WriteVisitor.WriteVisitor
         forallb map app].
    unfold visit_bind.
    rewrite list_lookup_total_middle by reflexivity.
    unfold write_bits at 1, fits_8_bits at 1. change (2 ^ Z.of_nat 8) with 256.
    destruct (Z.leb_spec 0 (char_to_uint32 ch)) as [_|Hneg];
      [|pose proof (char_to_uint32_nonneg ch); lia].
    destruct (char_to_uint32 ch <? 256); cbn [andb]; [|reflexivity].
    replace (length pre) with (length pre + 0)%nat at 2 by lia.
    rewrite insert_app_r. cbn [insert list_insert].
    set (x := uint32_to_char char_is_signed (char_to_uint32 ch)).
    replace (S (length pre)) with (length (pre ++ [x]))
      by (rewrite length_app; cbn; lia).
    rewrite (cons_middle x pre (suf ++ tail)), app_assoc.
    rewrite IH. destruct (forallb fits_8_bits suf); [|reflexivity].
    rewrite name_bits_cons, <- !app_assoc. reflexivity.
Qed.

(** What [VisitNameString] does when it writes. *)
Lemma VisitNameString_write_eq (name : list Z) (s : list bool) :
  let n := written_length name in
  VisitNameString char_is_signed WriteVisitor.WriteVisitor name s
  = if (n <=? 1071)%nat && forallb fits_8_bits (take n name)
    then Some (map (fun ch => uint32_to_char char_is_signed
                                (char_to_uint32 ch)) (take n name)
               ++ drop n name,
               s ++ name_length_bits (Z.of_nat n) ++ name_bits (take n name))
    else None.
Proof.
  intros n. destruct (written_length_le name) as [Hle Hn]. fold n in Hle, Hn.
  unfold VisitNameString, visit_bind.
  cbn [Visitor.U32 Visitor.IsReading WriteVisitor.WriteVisitor].
  rewrite <- Hn.
  destruct (Nat.leb_spec n 1071) as [Hsmall|Hbig]; cbn [andb].
  - rewrite write_U32_name_length by lia. rewrite Nat2Z.id.
    rewrite <- (take_drop n name) at 1.
    assert (Hlen : length (take n name) = n)
      by (rewrite length_take; lia).
    rewrite <- Hlen at 1.
    rewrite (write_loop_gen (take n name) [] (drop n name)).
    destruct (forallb fits_8_bits (take n name)); [|reflexivity].
    cbn [app]. rewrite <- app_assoc. reflexivity.
  - rewrite write_U32_name_length_fails by lia. reflexivity.
Qed.

(** Reading the bytes of the stream into the name from index
    [length pre] on: every byte is read, whatever its value, and cast to
    [char]. *)
Lemma read_loop_bytes (bytes pre old : list Z) (rest : list bool) :
  length old = length bytes ->
  Forall is_byte bytes ->
  VisitNameString_loop char_is_signed ReadVisitor
    (length bytes) (length pre) (pre ++ old) (byte_bits bytes ++ rest)
  = Some (pre ++ map (uint32_to_char char_is_signed) bytes, rest).
Proof.
  revert pre old. induction bytes as [|b bytes IH]; intros pre old Hlen Hall.
  - destruct old; [|discriminate]. reflexivity.
  - destruct old as [|o old]; [discriminate|].
    inversion Hall as [|? ? Hb Hbytes]; subst.
    cbn [length VisitNameString_loop Visitor.Bits ReadVisitor map].
    unfold visit_bind, byte_bits. cbn [map concat]. fold (byte_bits bytes).
    rewrite <- app_assoc, read_bits_bits_of
      by (change (2 ^ Z.of_nat 8) with 256; exact Hb).
    replace (length pre) with (length pre + 0)%nat at 2 by lia.
    rewrite insert_app_r. cbn [insert list_insert].
    set (x := uint32_to_char char_is_signed b).
    replace (S (length pre)) with (length (pre ++ [x]))
      by (rewrite length_app; cbn; lia).
    rewrite (cons_middle x pre old),
      (cons_middle x pre (map (uint32_to_char char_is_signed) bytes)),
      !app_assoc.
    apply IH; [|assumption]. cbn in Hlen. lia.
Qed.

Lemma VisitNameString_read_bytes (bytes old : list Z) (rest : list bool) :
  (length bytes <= 1071)%nat ->
  Forall is_byte bytes ->
  VisitNameString char_is_signed ReadVisitor old
    (name_length_bits (Z.of_nat (length bytes)) ++ byte_bits bytes ++ rest)
  = Some (map (uint32_to_char char_is_signed) bytes, rest).
Proof.
  intros Hlen Hall. unfold VisitNameString, visit_bind.
  cbn [Visitor.U32 Visitor.IsReading ReadVisitor].
  rewrite read_U32_name_length by lia. rewrite Nat2Z.id.
  apply (read_loop_bytes bytes [] (resize (length bytes) 0 old) rest);
    [apply length_resize | assumption].
Qed.

(** A character of the platform that fits eight bits when widened comes
    back from the cast unchanged. *)
Lemma char_cast_back (ch : Z) :
  is_char char_is_signed ch -> fits_8_bits ch = true ->
  is_byte (char_to_uint32 ch)
  /\ uint32_to_char char_is_signed (char_to_uint32 ch) = ch.
Proof.
  unfold is_char, fits_8_bits, is_byte. intros Hc Hf.
  apply Z.ltb_lt in Hf. pose proof (char_to_uint32_nonneg ch) as Hnn.
  split; [lia|].
  assert (Hch : char_to_uint32 ch = ch /\ 0 <= ch < 256).
  { unfold char_to_uint32, two32 in *.
    destruct (Z_lt_ge_dec ch 0) as [Hneg|Hpos].
    - assert (ch mod 2 ^ 32 = ch + 2 ^ 32)
        by (symmetry; apply (Z.mod_unique_pos ch (2 ^ 32) (-1)); destruct char_is_signed; lia).
      destruct char_is_signed; lia.
    - rewrite Z.mod_small in * by (destruct char_is_signed; lia). lia. }
  destruct Hch as [-> Hr]. unfold uint32_to_char.
  rewrite (Z.mod_small ch 256) by lia.
  destruct char_is_signed; cbn [andb]; [|reflexivity].
  destruct (Z.leb_spec 128 ch); [lia | reflexivity].
Qed.

(** C5. The length field of a name has the variants constant 0, 4 raw
    bits, 5 bits plus 16 and 10 bits plus 48: the lengths it holds are
    those from 0 to 1071 = 48 + 2^10 - 1, and a longer name is not
    written. Writing succeeds exactly when the coded length is at most
    1071 and every character, widened to 32 bits, fits its 8-bit field;
    the stream then grows by the length field followed by eight bits for
    each of that many characters, and by nothing else. Reading a length
    field followed by that many bytes, of any value from 0 to 255, gives
    the name of exactly these bytes, each cast to [char], and leaves what
    follows the last byte. What was written from characters of the
    platform reads back as the same name. *)
Theorem VisitNameString_length_then_chars :
  (forall v, name_length_representable v <-> 0 <= v <= 1071)
  /\ 1071 = 48 + 2 ^ 10 - 1
  /\ (forall name s,
        1071 < Z.of_nat (length name) < two32 ->
        VisitNameString char_is_signed WriteVisitor.WriteVisitor name s = None)
  /\ (forall name s,
        VisitNameString char_is_signed WriteVisitor.WriteVisitor name s <> None
        <-> (written_length name <= 1071)%nat
            /\ Forall (fun ch => char_to_uint32 ch < 256)
                 (take (written_length name) name))
  /\ (forall name s name' out,
        VisitNameString char_is_signed WriteVisitor.WriteVisitor name s
        = Some (name', out) ->
        (written_length name <= 1071)%nat
        /\ out = s ++ name_length_bits (Z.of_nat (written_length name))
                   ++ name_bits (take (written_length name) name)
        /\ length (name_bits (take (written_length name) name))
           = (8 * written_length name)%nat
        /\ (forall rest,
              read_U32 (Val 0) (Bits 4) (BitsOffset 5 16) (BitsOffset 10 48)
                (name_length_bits (Z.of_nat (written_length name)) ++ rest)
              = Some (Z.of_nat (written_length name), rest)))
  /\ (forall bytes old rest,
        (length bytes <= 1071)%nat ->
        Forall is_byte bytes ->
        VisitNameString char_is_signed ReadVisitor old
          (name_length_bits (Z.of_nat (length bytes))
           ++ byte_bits bytes ++ rest)
        = Some (map (uint32_to_char char_is_signed) bytes, rest))
  /\ (forall name s name' out,
        Z.of_nat (length name) < two32 ->
        Forall (is_char char_is_signed) name ->
        VisitNameString char_is_signed WriteVisitor.WriteVisitor name s
        = Some (name', out) ->
        name' = name
        /\ out = s ++ name_length_bits (Z.of_nat (length name)) ++ name_bits name
        /\ forall old rest,
             VisitNameString char_is_signed ReadVisitor old
               (name_length_bits (Z.of_nat (length name))
                ++ name_bits name ++ rest)
             = Some (name, rest)).
Proof.
  split; [exact name_length_representable_iff|].
  split; [reflexivity|]. split; [|split; [|split; [|split]]].
  - intros name s Hlen. rewrite VisitNameString_write_eq.
    rewrite (written_length_small name) by lia.
    destruct (Nat.leb_spec (length name) 1071); [lia | reflexivity].
  - intros name s. rewrite VisitNameString_write_eq.
    destruct (Nat.leb_spec (written_length name) 1071) as [Hs|Hb]; cbn [andb].
    + destruct (forallb fits_8_bits (take (written_length name) name)) eqn:E.
      * split; [|discriminate]. intros _. split; [assumption|].
        apply forallb_fits_8_bits. exact E.
      * split; [congruence|]. intros [_ Hall]. exfalso.
        apply forallb_fits_8_bits in Hall. congruence.
    + split; [congruence|]. intros [? _]. lia.
  - intros name s name' out. rewrite VisitNameString_write_eq.
    destruct (Nat.leb_spec (written_length name) 1071) as [Hs|Hb]; cbn [andb];
      [|discriminate].
    destruct (forallb fits_8_bits _); [|discriminate].
    intros [= <- <-]. split; [assumption|]. split; [reflexivity|].
    split.
    + rewrite length_name_bits, length_take.
      destruct (written_length_le name). lia.
    + intros rest. apply read_U32_name_length. lia.
  - exact VisitNameString_read_bytes.
  - intros name s name' out Hlen Hchars. rewrite VisitNameString_write_eq.
    rewrite (written_length_small name Hlen).
    rewrite firstn_all, skipn_all, app_nil_r.
    destruct (Nat.leb_spec (length name) 1071) as [Hs|Hb]; cbn [andb];
      [|discriminate].
    destruct (forallb fits_8_bits name) eqn:E; [|discriminate].
    intros [= <- <-].
    apply forallb_fits_8_bits in E.
    assert (Hback : Forall (fun ch => is_byte (char_to_uint32 ch)
                /\ uint32_to_char char_is_signed (char_to_uint32 ch) = ch) name).
    { clear - E Hchars. induction name as [|ch name IH]; [constructor|].
      inversion E; inversion Hchars; subst. constructor; [|auto].
      apply char_cast_back; [assumption|].
      unfold fits_8_bits. apply Z.ltb_lt. assumption. }
    assert (Hmap : map (fun ch => uint32_to_char char_is_signed
                                    (char_to_uint32 ch)) name = name).
    { clear - Hback. induction Hback as [|ch l [_ Hc] _ IH]; [reflexivity|].
      cbn [map]. rewrite Hc, IH. reflexivity. }
    split; [exact Hmap|]. split; [reflexivity|].
    intros old rest. rewrite name_bits_byte_bits.
    rewrite <- (length_map char_to_uint32 name).
    rewrite VisitNameString_read_bytes.
    + rewrite map_map. rewrite Hmap. reflexivity.
    + rewrite length_map. assumption.
    + clear - Hback. induction Hback as [|ch l [Hb _] _ IH]; constructor; assumption.
Qed.

End Names.

Lemma VisitNameString_length_then_chars_witness :
  let name := [104; 105] in
  (Z.of_nat (length name) < two32 /\ Forall (is_char true) name
   /\ VisitNameString true WriteVisitor.WriteVisitor name []
      = Some (name, name_length_bits 2 ++ name_bits name))
  /\ ((length [104; 195] <= 1071)%nat /\ Forall is_byte [104; 195])
  /\ (forall old rest,
        VisitNameString true ReadVisitor old
          (name_length_bits 2 ++ name_bits name ++ rest)
        = Some (name, rest))
  /\ VisitNameString true ReadVisitor [1; 2; 3]
       (name_length_bits 2 ++ byte_bits [104; 195] ++ [true; false])
     = Some ([104; -61], [true; false]).
Proof.
  cbv zeta.
  assert (Hlen : Z.of_nat (length [104; 105]) < two32) by reflexivity.
  assert (Hchars : Forall (is_char true) [104; 105])
    by (repeat constructor; discriminate).
  assert (Hw : VisitNameString true WriteVisitor.WriteVisitor [104; 105] []
               = Some ([104; 105], name_length_bits 2 ++ name_bits [104; 105]))
    by reflexivity.
  assert (Hlen' : (length [104; 195] <= 1071)%nat) by (cbn; lia).
  assert (Hbytes : Forall is_byte [104; 195])
    by (repeat constructor; (discriminate || reflexivity)).
  destruct (VisitNameString_length_then_chars true)
    as (_ & _ & _ & _ & _ & Hread & Hround).
  destruct (Hround [104; 105] [] _ _ Hlen Hchars Hw) as (_ & _ & Hr).
  split; [repeat split; assumption|].
  split; [split; assumption|].
  split; [exact Hr|].
  exact (Hread [104; 195] [1; 2; 3] [true; false] Hlen' Hbytes).
Defined.

End VisitNameStringFacts.

(** ** Chroma subsampling: shifts, predicates and fields *)

Module YCbCrChromaSubsamplingShifts.
Import YCbCrChromaSubsampling.

(** The cases of a mode in range. *)
Ltac mode_cases a :=
  match goal with
  | H : 0 <= a < 4 |- _ =>
      assert (a = 0 \/ a = 1 \/ a = 2 \/ a = 3) as [->|[->|[->| ->]]] by lia;
      clear H
  end.

Ltac valid_cases H :=
  let a := fresh "a" in let b := fresh "b" in let c := fresh "c" in
  let E := fresh "E" in
  destruct H as (a & b & c & E & ? & ? & ?);
  mode_cases a; mode_cases b; mode_cases c.

(** X1. [Recompute] keeps the modes and leaves a consistent cache: both
    maxima are 0 or 1, every [HShift] and [VShift] is 0 or 1 (the
    conversion to [size_t] never wraps), some channel has [HShift] 0 and
    some channel has [VShift] 0, and a second [Recompute] changes
    nothing. *)
Theorem Recompute_invariant (s : t) :
  modes_valid s ->
  let s' := Recompute s in
  channel_mode_ s' = channel_mode_ s
  /\ 0 <= MaxHShift s' <= 1 /\ 0 <= MaxVShift s' <= 1
  /\ (forall c, (c < 3)%nat ->
        0 <= HShift s' c <= 1 /\ 0 <= VShift s' c <= 1
        /\ HShift s' c = MaxHShift s' - mode_hshift s c
        /\ VShift s' c = MaxVShift s' - mode_vshift s c)
  /\ (exists c, (c < 3)%nat /\ HShift s' c = 0)
  /\ (exists c, (c < 3)%nat /\ VShift s' c = 0)
  /\ Recompute s' = s'.
Proof.
  intros Hv. destruct s as [modes mh mv]. cbn in Hv.
  valid_cases Hv; cbn in E; subst modes; cbv zeta;
    match goal with
    | |- context [Recompute ?x] =>
        let r := eval vm_compute in (Recompute x) in
        change (Recompute x) with r
    end;
    (split; [reflexivity|]); (split; [cbn; lia|]); (split; [cbn; lia|]);
    (split; [intros [|[|[|c]]] Hc; try lia; vm_compute; intuition discriminate|]);
    (split; [first [exists 0%nat; split; [lia | reflexivity]
                   | exists 1%nat; split; [lia | reflexivity]
                   | exists 2%nat; split; [lia | reflexivity]]|]);
    (split; [first [exists 0%nat; split; [lia | reflexivity]
                   | exists 1%nat; split; [lia | reflexivity]
                   | exists 2%nat; split; [lia | reflexivity]]|]);
    reflexivity.
Qed.

Lemma Recompute_invariant_witness :
  modes_valid (mk [0; 1; 0] 7 7)
  /\ channel_mode_ (Recompute (mk [0; 1; 0] 7 7)) = [0; 1; 0]
  /\ 0 <= MaxHShift (Recompute (mk [0; 1; 0] 7 7)) <= 1.
Proof.
  assert (Hv : modes_valid (mk [0; 1; 0] 7 7)).
  { exists 0, 1, 0. split; [reflexivity | lia]. }
  split; [exact Hv|].
  destruct (Recompute_invariant (mk [0; 1; 0] 7 7) Hv) as (Hm & Hh & _).
  split; [exact Hm | exact Hh].
Defined.

Lemma pattern_shifts (h v : Z) (i : nat) :
  sampling_pattern h v = Some i ->
  Z.shiftl 1 (kHShift i) = h /\ Z.shiftl 1 (kVShift i) = v /\ (i < 4)%nat.
Proof.
  unfold sampling_pattern.
  destruct (Z.eqb_spec h 1), (Z.eqb_spec h 2), (Z.eqb_spec v 1),
    (Z.eqb_spec v 2); cbn [andb]; intros [= <-]; subst;
    repeat split; lia.
Qed.

(** The state that a call of [Set] with three known patterns leaves. *)
Lemma Set_success_state (s : t) (hs vs : list Z) (i0 i1 i2 : nat) :
  length (channel_mode_ s) = 3%nat ->
  sampling_pattern (hs !!! 1%nat) (vs !!! 1%nat) = Some i0 ->
  sampling_pattern (hs !!! 0%nat) (vs !!! 0%nat) = Some i1 ->
  sampling_pattern (hs !!! 2%nat) (vs !!! 2%nat) = Some i2 ->
  Set_ s hs vs =
  (true, Recompute (mk [Z.of_nat i0; Z.of_nat i1; Z.of_nat i2] 0 0)).
Proof.
  intros Hlen E0 E1 E2. destruct s as [modes mh mv]. cbn in Hlen.
  destruct modes as [|m0 [|m1 [|m2 [|? ?]]]]; try discriminate.
  unfold Set_.
  rewrite YCbCrChromaSubsamplingFacts.Set_loop_step.
  change (cjpeg 0) with 1%nat. rewrite E0.
  rewrite YCbCrChromaSubsamplingFacts.Set_loop_step.
  change (cjpeg 1) with 0%nat. rewrite E1.
  rewrite YCbCrChromaSubsamplingFacts.Set_loop_step.
  change (cjpeg 2) with 2%nat. rewrite E2.
  reflexivity.
Qed.

Lemma Set_status (s : t) (hs vs : list Z) :
  fst (Set_ s hs vs) = true <->
  forall c, (c < 3)%nat ->
    sampling_pattern (hs !!! cjpeg c) (vs !!! cjpeg c) <> None.
Proof.
  unfold Set_.
  rewrite YCbCrChromaSubsamplingFacts.Set_loop_step.
  destruct (sampling_pattern (hs !!! cjpeg 0) (vs !!! cjpeg 0)) eqn:E0.
  2:{ cbn. split; [discriminate|]. intros H. exfalso. apply (H 0%nat); [lia | exact E0]. }
  rewrite YCbCrChromaSubsamplingFacts.Set_loop_step.
  destruct (sampling_pattern (hs !!! cjpeg 1) (vs !!! cjpeg 1)) eqn:E1.
  2:{ cbn. split; [discriminate|]. intros H. exfalso. apply (H 1%nat); [lia | exact E1]. }
  rewrite YCbCrChromaSubsamplingFacts.Set_loop_step.
  destruct (sampling_pattern (hs !!! cjpeg 2) (vs !!! cjpeg 2)) eqn:E2.
  2:{ cbn. split; [discriminate|]. intros H. exfalso. apply (H 2%nat); [lia | exact E2]. }
  cbn. split; [|reflexivity]. intros _ [|[|[|c]]] Hc; try lia; congruence.
Qed.

Lemma Set_success_patterns (s : t) (hs vs : list Z) :
  fst (Set_ s hs vs) = true ->
  exists i0 i1 i2,
    sampling_pattern (hs !!! 1%nat) (vs !!! 1%nat) = Some i0
    /\ sampling_pattern (hs !!! 0%nat) (vs !!! 0%nat) = Some i1
    /\ sampling_pattern (hs !!! 2%nat) (vs !!! 2%nat) = Some i2.
Proof.
  intros Hok. pose proof (proj1 (Set_status s hs vs) Hok) as H.
  pose proof (H 0%nat ltac:(lia)) as H0. pose proof (H 1%nat ltac:(lia)) as H1.
  pose proof (H 2%nat ltac:(lia)) as H2.
  change (cjpeg 0) with 1%nat in H0. change (cjpeg 1) with 0%nat in H1.
  change (cjpeg 2) with 2%nat in H2.
  destruct (sampling_pattern (hs !!! 1%nat) _) as [i0|]; [|congruence].
  destruct (sampling_pattern (hs !!! 0%nat) _) as [i1|]; [|congruence].
  destruct (sampling_pattern (hs !!! 2%nat) _) as [i2|]; [|congruence].
  exists i0, i1, i2. repeat split.
Qed.

Ltac pattern_cases i :=
  match goal with
  | H : (i < 4)%nat |- _ =>
      destruct i as [|[|[|[|i]]]]; [| | | |exfalso; lia]; clear H
  end.

(** X2. [Set] succeeds exactly when each of the three channels has one of
    the four sampling patterns. After a successful call the modes are
    valid, and the mode of every channel gives back the sampling factors
    that were passed for it: [1 << kHShift[mode]] and [1 << kVShift[mode]]
    are the channel's [hsample] and [vsample]. *)
Theorem Set_success_roundtrip (s : t) (hs vs : list Z) :
  length (channel_mode_ s) = 3%nat ->
  (fst (Set_ s hs vs) = true <->
   forall c, (c < 3)%nat ->
     sampling_pattern (hs !!! cjpeg c) (vs !!! cjpeg c) <> None)
  /\ (fst (Set_ s hs vs) = true ->
      modes_valid (snd (Set_ s hs vs))
      /\ forall c, (c < 3)%nat ->
           Z.shiftl 1 (mode_hshift (snd (Set_ s hs vs)) c) = hs !!! cjpeg c
           /\ Z.shiftl 1 (mode_vshift (snd (Set_ s hs vs)) c) = vs !!! cjpeg c).
Proof.
  intros Hlen. split; [apply Set_status|]. intros Hok.
  destruct (Set_success_patterns s hs vs Hok) as (i0 & i1 & i2 & E0 & E1 & E2).
  rewrite (Set_success_state s hs vs i0 i1 i2 Hlen E0 E1 E2). cbn [snd].
  destruct (pattern_shifts _ _ _ E0) as (Hh0 & Hv0 & B0).
  destruct (pattern_shifts _ _ _ E1) as (Hh1 & Hv1 & B1).
  destruct (pattern_shifts _ _ _ E2) as (Hh2 & Hv2 & B2).
  split.
  - exists (Z.of_nat i0), (Z.of_nat i1), (Z.of_nat i2).
    split; [reflexivity | lia].
  - intros [|[|[|c]]] Hc; try lia.
    + change (cjpeg 0) with 1%nat. rewrite <- Hh0, <- Hv0.
      unfold mode_hshift, mode_vshift; cbn. rewrite !Nat2Z.id. auto.
    + change (cjpeg 1) with 0%nat. rewrite <- Hh1, <- Hv1.
      unfold mode_hshift, mode_vshift; cbn. rewrite !Nat2Z.id. auto.
    + change (cjpeg 2) with 2%nat. rewrite <- Hh2, <- Hv2.
      unfold mode_hshift, mode_vshift; cbn. rewrite !Nat2Z.id. auto.
Qed.

Lemma Set_success_roundtrip_witness :
  let s := mk [3; 3; 3] 0 0 in
  let hs := [2; 1; 1] in
  let vs := [1; 1; 1] in
  length (channel_mode_ s) = 3%nat
  /\ fst (Set_ s hs vs) = true
  /\ modes_valid (snd (Set_ s hs vs))
  /\ forall c, (c < 3)%nat ->
       Z.shiftl 1 (mode_hshift (snd (Set_ s hs vs)) c) = hs !!! cjpeg c
       /\ Z.shiftl 1 (mode_vshift (snd (Set_ s hs vs)) c) = vs !!! cjpeg c.
Proof.
  cbv zeta. split; [reflexivity|]. split; [reflexivity|].
  exact (proj2 (Set_success_roundtrip (mk [3; 3; 3] 0 0) [2; 1; 1] [1; 1; 1]
                  eq_refl) eq_refl).
Defined.

(** X3. After a successful [Set], [HShift] and [VShift] are what they are
    for: the sampling factor of a channel, shifted left by the channel's
    shift, is two to the maximal shift, and that power is the largest of
    the three sampling factors. *)
Theorem Set_shift_meaning (s : t) (hs vs : list Z) :
  length (channel_mode_ s) = 3%nat ->
  fst (Set_ s hs vs) = true ->
  let s' := snd (Set_ s hs vs) in
  (forall c, (c < 3)%nat ->
     Z.shiftl (hs !!! cjpeg c) (HShift s' c) = 2 ^ MaxHShift s'
     /\ Z.shiftl (vs !!! cjpeg c) (VShift s' c) = 2 ^ MaxVShift s')
  /\ 2 ^ MaxHShift s' = Z.max (hs !!! 0%nat) (Z.max (hs !!! 1%nat) (hs !!! 2%nat))
  /\ 2 ^ MaxVShift s' = Z.max (vs !!! 0%nat) (Z.max (vs !!! 1%nat) (vs !!! 2%nat)).
Proof.
  intros Hlen Hok.
  destruct (Set_success_patterns s hs vs Hok) as (i0 & i1 & i2 & E0 & E1 & E2).
  rewrite (Set_success_state s hs vs i0 i1 i2 Hlen E0 E1 E2). cbn [snd].
  destruct (pattern_shifts _ _ _ E0) as (Hh0 & Hv0 & B0).
  destruct (pattern_shifts _ _ _ E1) as (Hh1 & Hv1 & B1).
  destruct (pattern_shifts _ _ _ E2) as (Hh2 & Hv2 & B2).
  cbv zeta.
  split; [intros [|[|[|c]]] Hc; [| | |exfalso; lia]|].
  all: change (cjpeg 0) with 1%nat; change (cjpeg 1) with 0%nat;
       change (cjpeg 2) with 2%nat;
       rewrite <- ?Hh0, <- ?Hv0, <- ?Hh1, <- ?Hv1, <- ?Hh2, <- ?Hv2;
       clear - B0 B1 B2;
       pattern_cases i0; pattern_cases i1; pattern_cases i2;
       vm_compute; split; reflexivity.
Qed.

Lemma Set_shift_meaning_witness :
  let s := mk [0; 0; 0] 0 0 in
  let hs := [2; 1; 1] in
  let vs := [1; 1; 1] in
  (length (channel_mode_ s) = 3%nat /\ fst (Set_ s hs vs) = true)
  /\ (forall c, (c < 3)%nat ->
        Z.shiftl (hs !!! cjpeg c) (HShift (snd (Set_ s hs vs)) c) = 2
        /\ Z.shiftl (vs !!! cjpeg c) (VShift (snd (Set_ s hs vs)) c) = 1).
Proof.
  cbv zeta. split; [split; reflexivity|].
  exact (proj1 (Set_shift_meaning (mk [0; 0; 0] 0 0) [2; 1; 1] [1; 1; 1]
                  eq_refl eq_refl)).
Defined.

(** X4. A successful [Set] overwrites the whole descriptor: the result is
    the same whatever the three modes and the cached maxima were. *)
Theorem Set_success_overwrites (s1 s2 : t) (hs vs : list Z) :
  length (channel_mode_ s1) = 3%nat ->
  length (channel_mode_ s2) = 3%nat ->
  fst (Set_ s1 hs vs) = true ->
  Set_ s2 hs vs = Set_ s1 hs vs.
Proof.
  intros H1 H2 Hok.
  destruct (Set_success_patterns s1 hs vs Hok) as (i0 & i1 & i2 & E0 & E1 & E2).
  rewrite (Set_success_state s1 hs vs i0 i1 i2 H1 E0 E1 E2).
  apply (Set_success_state s2 hs vs i0 i1 i2 H2 E0 E1 E2).
Qed.

Lemma Set_success_overwrites_witness :
  (length (channel_mode_ (mk [3; 2; 1] 1 1)) = 3%nat
   /\ length (channel_mode_ (mk [0; 0; 0] 0 0)) = 3%nat
   /\ fst (Set_ (mk [3; 2; 1] 1 1) [2; 1; 1] [2; 1; 1]) = true)
  /\ Set_ (mk [0; 0; 0] 0 0) [2; 1; 1] [2; 1; 1]
     = Set_ (mk [3; 2; 1] 1 1) [2; 1; 1] [2; 1; 1].
Proof.
  split; [repeat split|].
  exact (Set_success_overwrites (mk [3; 2; 1] 1 1) (mk [0; 0; 0] 0 0)
           [2; 1; 1] [2; 1; 1] eq_refl eq_refl eq_refl).
Defined.

(** X5. On a descriptor with valid modes, [Is444] holds exactly when,
    once the cache is recomputed, no channel is shifted in either
    direction. *)
Theorem Is444_iff_no_shift (s : t) :
  modes_valid s ->
  Is444 s = true <->
  forall c, (c < 3)%nat ->
    HShift (Recompute s) c = 0 /\ VShift (Recompute s) c = 0.
Proof.
  intros Hv. destruct s as [modes mh mv]. cbn in Hv.
  valid_cases Hv; cbn in E; subst modes;
    match goal with
    | |- context [Recompute ?x] =>
        let r := eval vm_compute in (Recompute x) in
        change (Recompute x) with r
    end;
    (split;
     [ intros H; first [discriminate H
                       | intros [|[|[|c]]] Hc; [| | |exfalso; lia];
                         split; reflexivity]
     | intros H; first [reflexivity
                       | exfalso;
                         pose proof (H 0%nat ltac:(lia)) as [Ha0 Hb0];
                         pose proof (H 1%nat ltac:(lia)) as [Ha1 Hb1];
                         pose proof (H 2%nat ltac:(lia)) as [Ha2 Hb2];
                         vm_compute in Ha0, Hb0, Ha1, Hb1, Ha2, Hb2;
                         discriminate] ]).
Qed.

Lemma Is444_iff_no_shift_witness :
  modes_valid (mk [2; 2; 2] 0 0)
  /\ (Is444 (mk [2; 2; 2] 0 0) = true <->
      forall c, (c < 3)%nat ->
        HShift (Recompute (mk [2; 2; 2] 0 0)) c = 0
        /\ VShift (Recompute (mk [2; 2; 2] 0 0)) c = 0).
Proof.
  assert (Hv : modes_valid (mk [2; 2; 2] 0 0)).
  { exists 2, 2, 2. split; [reflexivity | lia]. }
  split; [exact Hv|]. exact (Is444_iff_no_shift (mk [2; 2; 2] 0 0) Hv).
Defined.

(** X6. After a successful [Set], [Is420] holds exactly when the first
    (luma) channel of the JPEG order has the factors 1 x 1 and the two
    other channels have the factors 2 x 2. *)
Theorem Is420_after_Set (s : t) (hs vs : list Z) :
  length (channel_mode_ s) = 3%nat ->
  fst (Set_ s hs vs) = true ->
  Is420 (snd (Set_ s hs vs)) = true <->
  (hs !!! 0%nat = 1 /\ vs !!! 0%nat = 1)
  /\ (hs !!! 1%nat = 2 /\ vs !!! 1%nat = 2)
  /\ (hs !!! 2%nat = 2 /\ vs !!! 2%nat = 2).
Proof.
  intros Hlen Hok.
  destruct (Set_success_patterns s hs vs Hok) as (i0 & i1 & i2 & E0 & E1 & E2).
  rewrite (Set_success_state s hs vs i0 i1 i2 Hlen E0 E1 E2). cbn [snd].
  destruct (pattern_shifts _ _ _ E0) as (Hh0 & Hv0 & B0).
  destruct (pattern_shifts _ _ _ E1) as (Hh1 & Hv1 & B1).
  destruct (pattern_shifts _ _ _ E2) as (Hh2 & Hv2 & B2).
  rewrite <- Hh0, <- Hv0, <- Hh1, <- Hv1, <- Hh2, <- Hv2.
  clear - B0 B1 B2.
  pattern_cases i0; pattern_cases i1; pattern_cases i2;
    vm_compute; intuition discriminate.
Qed.

Lemma Is420_after_Set_witness :
  let s := mk [0; 0; 0] 0 0 in
  (length (channel_mode_ s) = 3%nat
   /\ fst (Set_ s [1; 2; 2] [1; 2; 2]) = true)
  /\ (Is420 (snd (Set_ s [1; 2; 2] [1; 2; 2])) = true <->
      ([1; 2; 2] !!! 0%nat = 1 /\ [1; 2; 2] !!! 0%nat = 1)
      /\ ([1; 2; 2] !!! 1%nat = 2 /\ [1; 2; 2] !!! 1%nat = 2)
      /\ ([1; 2; 2] !!! 2%nat = 2 /\ [1; 2; 2] !!! 2%nat = 2)).
Proof.
  cbv zeta. split; [split; reflexivity|].
  exact (Is420_after_Set (mk [0; 0; 0] 0 0) [1; 2; 2] [1; 2; 2]
           eq_refl eq_refl).
Defined.

(** X7. A descriptor on which [Is444] holds also passes [Is422] and
    [Is440]. [Is422] answers false exactly when channel 0 or channel 2
    has, by its mode, one more horizontal shift than channel 1 and the
    same vertical shift; [Is440] answers false exactly when channel 0 or
    channel 2 has the same horizontal shift as channel 1 and one more
    vertical shift. *)
Theorem Is444_Is422_Is440 (s : t) :
  (Is444 s = true -> Is422 s = true /\ Is440 s = true)
  /\ (Is422 s = false <->
      exists c, (c = 0 \/ c = 2)%nat
                /\ mode_hshift s c = mode_hshift s 1 + 1
                /\ mode_vshift s c = mode_vshift s 1)
  /\ (Is440 s = false <->
      exists c, (c = 0 \/ c = 2)%nat
                /\ mode_hshift s c = mode_hshift s 1
                /\ mode_vshift s c = mode_vshift s 1 + 1).
Proof.
  split; [|split].
  - unfold Is444, Is422, Is440, mode_hshift, mode_vshift.
    destruct (Z.eqb_spec (channel_mode_ s !!! 0%nat) (channel_mode_ s !!! 1%nat))
      as [E0|]; cbn [negb]; [|discriminate].
    destruct (Z.eqb_spec (channel_mode_ s !!! 2%nat) (channel_mode_ s !!! 1%nat))
      as [E2|]; cbn [negb]; [|discriminate].
    intros _. rewrite E0, E2.
    set (h := kHShift _). set (v := kVShift _).
    assert (Hh : (h =? h + 1) = false) by (apply Z.eqb_neq; lia).
    assert (Hv : (v =? v + 1) = false) by (apply Z.eqb_neq; lia).
    rewrite Hh, Hv, !andb_false_r. cbn. auto.
  - unfold Is422.
    destruct (Z.eqb_spec (mode_hshift s 0) (mode_hshift s 1 + 1)) as [H0|H0],
      (Z.eqb_spec (mode_vshift s 0) (mode_vshift s 1)) as [V0|V0],
      (Z.eqb_spec (mode_hshift s 2) (mode_hshift s 1 + 1)) as [H2|H2],
      (Z.eqb_spec (mode_vshift s 2) (mode_vshift s 1)) as [V2|V2];
      cbn [andb];
      (split;
       [ intros E; first [discriminate E
                         | exists 0%nat; split; [left; reflexivity | split; assumption]
                         | exists 2%nat; split; [right; reflexivity | split; assumption] ]
       | intros (c & [-> | ->] & Hh & Hv); first [reflexivity | contradiction] ]).
  - unfold Is440.
    destruct (Z.eqb_spec (mode_hshift s 0) (mode_hshift s 1)) as [H0|H0],
      (Z.eqb_spec (mode_vshift s 0) (mode_vshift s 1 + 1)) as [V0|V0],
      (Z.eqb_spec (mode_hshift s 2) (mode_hshift s 1)) as [H2|H2],
      (Z.eqb_spec (mode_vshift s 2) (mode_vshift s 1 + 1)) as [V2|V2];
      cbn [andb];
      (split;
       [ intros E; first [discriminate E
                         | exists 0%nat; split; [left; reflexivity | split; assumption]
                         | exists 2%nat; split; [right; reflexivity | split; assumption] ]
       | intros (c & [-> | ->] & Hh & Hv); first [reflexivity | contradiction] ]).
Qed.

Lemma Is444_Is422_Is440_witness :
  (Is444 (mk [1; 1; 1] 1 1) = true
   /\ Is422 (mk [1; 1; 1] 1 1) = true /\ Is440 (mk [1; 1; 1] 1 1) = true)
  /\ (Is422 (mk [2; 0; 2] 1 0) = false
      /\ exists c, (c = 0 \/ c = 2)%nat
                   /\ mode_hshift (mk [2; 0; 2] 1 0) c
                      = mode_hshift (mk [2; 0; 2] 1 0) 1 + 1
                   /\ mode_vshift (mk [2; 0; 2] 1 0) c
                      = mode_vshift (mk [2; 0; 2] 1 0) 1).
Proof.
  split.
  - split; [reflexivity|].
    exact (proj1 (Is444_Is422_Is440 (mk [1; 1; 1] 1 1)) eq_refl).
  - split; [reflexivity|].
    exact (proj1 (proj1 (proj2 (Is444_Is422_Is440 (mk [2; 0; 2] 1 0))))
             eq_refl).
Defined.

End YCbCrChromaSubsamplingShifts.

Module YCbCrChromaSubsamplingFieldsFacts.
Import YCbCrChromaSubsampling YCbCrChromaSubsamplingFields.

Lemma value_of_bound (bits : list bool) :
  0 <= value_of bits < 2 ^ Z.of_nat (length bits).
Proof.
  induction bits as [|b bits IH]; [cbn; lia|].
  cbn [value_of length]. rewrite Nat2Z.inj_succ, Z.pow_succ_r by lia.
  destruct b; cbn [Z.b2z]; lia.
Qed.

(** A read that succeeds gives a value of the field's width and takes
    exactly the field's bits off the stream. *)
Lemma read_bits_Some (n : nat) (s s' : list bool) (v : Z) :
  read_bits n s = Some (v, s') ->
  0 <= v < 2 ^ Z.of_nat n /\ v = value_of (take n s) /\ s' = drop n s
  /\ length s = (n + length s')%nat.
Proof.
  unfold read_bits. destruct (Nat.ltb_spec (length s) n); [discriminate|].
  intros [= <- <-].
  pose proof (value_of_bound (take n s)) as Hb.
  rewrite length_take, Nat.min_l in Hb by assumption.
  rewrite length_drop. repeat split; lia.
Qed.

Lemma Recompute_idempotent (s : t) : Recompute (Recompute s) = Recompute s.
Proof. destruct s. reflexivity. Qed.

Lemma Recompute_modes (modes : list Z) (mh mv mh' mv' : Z) :
  Recompute (mk modes mh mv) = Recompute (mk modes mh' mv').
Proof. reflexivity. Qed.

(** X8. The descriptor is coded as its three modes, two bits each. Writing
    a descriptor with valid modes appends these six bits and leaves the
    descriptor with its cache recomputed; reading them back into any
    descriptor gives that same descriptor and leaves what follows the six
    bits. *)
Theorem VisitFields_roundtrip (s : t) :
  modes_valid s ->
  length (mode_bits s) = 6%nat
  /\ (forall out,
        VisitFields WriteVisitor.WriteVisitor s out
        = Some (Recompute s, out ++ mode_bits s))
  /\ (forall s0 rest,
        length (channel_mode_ s0) = 3%nat ->
        VisitFields ReadVisitor s0 (mode_bits s ++ rest)
        = Some (Recompute s, rest)).
Proof.
  intros (a & b & c & E & Ha & Hb & Hc). destruct s as [modes mh mv].
  cbn in E. subst modes.
  assert (Hw : forall x, 0 <= x < 4 -> 0 <= x < 2 ^ Z.of_nat 2)
    by (intros x Hx; change (2 ^ Z.of_nat 2) with 4; exact Hx).
  split; [reflexivity|]. split.
  - intros out. unfold VisitFields, visit_bind, visit_ret, mode_bits.
    cbn [VisitFields_loop Visitor.Bits WriteVisitor.WriteVisitor
         channel_mode_ set_channel_mode lookup_total list_lookup_total
         insert list_insert map concat].
    unfold visit_bind, visit_ret.
    rewrite (VisitNameStringFacts.write_bits_ok 2 a) by auto.
    cbn [channel_mode_ lookup_total list_lookup_total insert list_insert].
    rewrite (VisitNameStringFacts.write_bits_ok 2 b) by auto.
    cbn [channel_mode_ lookup_total list_lookup_total insert list_insert].
    rewrite (VisitNameStringFacts.write_bits_ok 2 c) by auto.
    cbn [channel_mode_ lookup_total list_lookup_total insert list_insert].
    rewrite app_nil_r, <- !app_assoc. reflexivity.
  - intros [modes0 mh0 mv0] rest Hlen. cbn in Hlen.
    destruct modes0 as [|x [|y [|z [|? ?]]]]; try discriminate.
    unfold VisitFields, visit_bind, visit_ret, mode_bits.
    cbn [VisitFields_loop Visitor.Bits ReadVisitor
         channel_mode_ set_channel_mode lookup_total list_lookup_total
         insert list_insert map concat].
    unfold visit_bind, visit_ret.
    rewrite app_nil_r, <- !app_assoc.
    rewrite (VisitNameStringFacts.read_bits_bits_of 2 a) by auto.
    cbn [channel_mode_ lookup_total list_lookup_total insert list_insert].
    rewrite (VisitNameStringFacts.read_bits_bits_of 2 b) by auto.
    cbn [channel_mode_ lookup_total list_lookup_total insert list_insert].
    rewrite (VisitNameStringFacts.read_bits_bits_of 2 c) by auto.
    cbn [channel_mode_ lookup_total list_lookup_total insert list_insert].
    reflexivity.
Qed.

Lemma VisitFields_roundtrip_witness :
  let s := mk [2; 0; 3] 0 0 in
  modes_valid s
  /\ VisitFields WriteVisitor.WriteVisitor s [true]
     = Some (mk [2; 0; 3] 1 1, [true] ++ mode_bits s)
  /\ VisitFields ReadVisitor (mk [1; 1; 1] 1 1) (mode_bits s ++ [false])
     = Some (mk [2; 0; 3] 1 1, [false]).
Proof.
  cbv zeta.
  assert (Hv : modes_valid (mk [2; 0; 3] 0 0)).
  { exists 2, 0, 3. split; [reflexivity | lia]. }
  split; [exact Hv|].
  destruct (VisitFields_roundtrip (mk [2; 0; 3] 0 0) Hv) as (_ & Hw & Hr).
  split; [exact (Hw [true]) | exact (Hr (mk [1; 1; 1] 1 1) [false] eq_refl)].
Defined.

(** X9. Whatever the stream holds, a read that succeeds takes exactly six
    bits and leaves a descriptor with three valid modes, the modes these
    six bits code, and a cache that agrees with them. *)
Theorem VisitFields_read_valid (s0 s : t) (bits rest : list bool) :
  length (channel_mode_ s0) = 3%nat ->
  VisitFields ReadVisitor s0 bits = Some (s, rest) ->
  modes_valid s
  /\ Recompute s = s
  /\ length bits = (6 + length rest)%nat
  /\ rest = drop 6 bits
  /\ channel_mode_ s =
       [value_of (take 2 bits); value_of (take 2 (drop 2 bits));
        value_of (take 2 (drop 4 bits))].
Proof.
  intros Hlen. destruct s0 as [modes0 mh0 mv0]. cbn in Hlen.
  destruct modes0 as [|x [|y [|z [|? ?]]]]; try discriminate.
  unfold VisitFields, visit_bind, visit_ret.
  cbn [VisitFields_loop Visitor.Bits ReadVisitor].
  unfold visit_bind, visit_ret.
  destruct (read_bits 2 bits) as [[a r1]|] eqn:E1; [|discriminate].
  destruct (read_bits 2 r1) as [[b r2]|] eqn:E2; [|discriminate].
  destruct (read_bits 2 r2) as [[c r3]|] eqn:E3; [|discriminate].
  cbn [channel_mode_ set_channel_mode insert list_insert].
  intros [= <- <-].
  apply read_bits_Some in E1 as (Ba & Va & D1 & L1).
  apply read_bits_Some in E2 as (Bb & Vb & D2 & L2).
  apply read_bits_Some in E3 as (Bc & Vc & D3 & L3).
  change (2 ^ Z.of_nat 2) with 4 in *.
  split; [exists a, b, c; split; [reflexivity | lia]|].
  split; [reflexivity|]. split; [lia|].
  subst r1 r2. rewrite !drop_drop in *. cbn [Nat.add] in *.
  split; [assumption|]. cbn. congruence.
Qed.

Lemma VisitFields_read_valid_witness :
  let bits := [true; true; false; false; true; false; true] in
  (length (channel_mode_ (mk [0; 0; 0] 0 0)) = 3%nat
   /\ VisitFields ReadVisitor (mk [0; 0; 0] 0 0) bits
      = Some (mk [3; 0; 1] 1 1, [true]))
  /\ modes_valid (mk [3; 0; 1] 1 1)
  /\ Recompute (mk [3; 0; 1] 1 1) = mk [3; 0; 1] 1 1
  /\ length bits = (6 + length [true])%nat.
Proof.
  cbv zeta. split; [split; reflexivity|].
  destruct (VisitFields_read_valid (mk [0; 0; 0] 0 0) (mk [3; 0; 1] 1 1)
              [true; true; false; false; true; false; true] [true]
              eq_refl eq_refl) as (Hv & Hr & Hl & _).
  split; [exact Hv|]. split; [exact Hr | exact Hl].
Defined.

End YCbCrChromaSubsamplingFieldsFacts.

(** ** Frame header: flags and frame dimensions *)

Module FrameHeaderMore.
Import FrameHeader FrameHeaderUpdate.

Lemma testbit_above (x i : Z) :
  0 <= x < two64 -> 64 <= i -> Z.testbit x i = false.
Proof.
  unfold two64. intros Hx Hi.
  destruct (Z.eq_dec x 0) as [->|Hne]; [apply Z.bits_0|].
  apply Z.bits_above_log2; [lia|].
  assert (Z.log2 x < 64) by (apply Z.log2_lt_pow2; lia). lia.
Qed.

Lemma testbit_ones64 (i : Z) :
  0 <= i -> Z.testbit (two64 - 1) i = (i <? 64).
Proof.
  intros Hi. change (two64 - 1) with (Z.ones 64).
  destruct (Z.ltb_spec i 64).
  - apply Z.ones_spec_low. lia.
  - apply Z.ones_spec_high. lia.
Qed.

Lemma UpdateFlag_testbit (h : t) (condition : bool) (flag i : Z) :
  0 <= flags h < two64 -> 0 <= flag < two64 -> 0 <= i ->
  Z.testbit (UpdateFlag h condition flag) i
  = if Z.testbit flag i then condition else Z.testbit (flags h) i.
Proof.
  intros Hf Hg Hi. unfold UpdateFlag. destruct condition.
  - rewrite Z.lor_spec. destruct (Z.testbit flag i); [apply orb_true_r | apply orb_false_r].
  - rewrite Z.land_spec, Z.lxor_spec, testbit_ones64 by assumption.
    destruct (Z.ltb_spec i 64).
    + destruct (Z.testbit flag i); cbn; [apply andb_false_r | apply andb_true_r].
    + rewrite (testbit_above (flags h) i), (testbit_above flag i) by lia.
      reflexivity.
Qed.

Lemma UpdateFlag_range (h : t) (condition : bool) (flag : Z) :
  0 <= flags h < two64 -> 0 <= flag < two64 ->
  0 <= UpdateFlag h condition flag < two64.
Proof.
  intros Hf Hg.
  assert (Hnn : 0 <= UpdateFlag h condition flag).
  { unfold UpdateFlag. destruct condition.
    - apply Z.lor_nonneg. lia.
    - apply Z.land_nonneg. lia. }
  split; [exact Hnn|].
  assert (E : UpdateFlag h condition flag mod 2 ^ 64 = UpdateFlag h condition flag).
  { rewrite <- Z.land_ones by lia. apply Z.bits_inj'. intros i Hi.
    rewrite Z.land_spec. change (Z.ones 64) with (two64 - 1).
    rewrite testbit_ones64 by assumption.
    destruct (Z.ltb_spec i 64); [apply andb_true_r|].
    rewrite andb_false_r, UpdateFlag_testbit by assumption.
    rewrite (testbit_above (flags h) i), (testbit_above flag i) by lia.
    reflexivity. }
  rewrite <- E. unfold two64. apply Z.mod_pos_bound. lia.
Qed.

(** X10. [UpdateFlag] sets or clears exactly the bits of [flag]: every bit
    of [flag] ends up equal to the condition, every other bit of [flags]
    is as it was, and the result is again a 64-bit value. So after
    setting, [flags & flag] is [flag]; after clearing it is 0. *)
Theorem UpdateFlag_bits (h : t) (condition : bool) (flag : Z) :
  0 <= flags h < two64 -> 0 <= flag < two64 ->
  0 <= UpdateFlag h condition flag < two64
  /\ (forall i, 0 <= i ->
        flag_bit (UpdateFlag h condition flag) i
        = if flag_bit flag i then condition else flag_bit (flags h) i)
  /\ Z.land (UpdateFlag h condition flag) flag = (if condition then flag else 0).
Proof.
  intros Hf Hg.
  split; [apply UpdateFlag_range; assumption|]. split.
  - intros i Hi. apply UpdateFlag_testbit; assumption.
  - apply Z.bits_inj'. intros i Hi.
    rewrite Z.land_spec, UpdateFlag_testbit by assumption.
    destruct condition, (Z.testbit flag i) eqn:Eb;
      rewrite ?Z.bits_0, ?Eb, ?andb_false_r; reflexivity.
Qed.

Lemma UpdateFlag_bits_witness :
  (0 <= flags example_header < two64 /\ 0 <= kUseDcFrame < two64)
  /\ 0 <= UpdateFlag example_header true kUseDcFrame < two64
  /\ Z.land (UpdateFlag example_header true kUseDcFrame) kUseDcFrame
     = kUseDcFrame.
Proof.
  assert (H1 : 0 <= flags example_header < two64) by (vm_compute; split; [discriminate | reflexivity]).
  assert (H2 : 0 <= kUseDcFrame < two64) by (vm_compute; split; [discriminate | reflexivity]).
  destruct (UpdateFlag_bits example_header true kUseDcFrame H1 H2) as (Hr & _ & Hl).
  split; [split; assumption|]. split; [exact Hr | exact Hl].
Defined.

Lemma set_flags_flags (h : t) (fl : Z) : flags (set_flags h fl) = fl.
Proof. reflexivity. Qed.

Lemma set_flags_twice (h : t) (fl fl' : Z) :
  set_flags (set_flags h fl) fl' = set_flags h fl'.
Proof. reflexivity. Qed.

(** X11. Two updates whose flags share no bit give the same header in
    either order, and an update that is repeated changes nothing more. *)
Theorem UpdateFlag_commutes (h : t) (c1 c2 : bool) (f1 f2 : Z) :
  0 <= flags h < two64 -> 0 <= f1 < two64 -> 0 <= f2 < two64 ->
  Z.land f1 f2 = 0 ->
  after_UpdateFlag (after_UpdateFlag h c1 f1) c2 f2
  = after_UpdateFlag (after_UpdateFlag h c2 f2) c1 f1
  /\ after_UpdateFlag (after_UpdateFlag h c1 f1) c1 f1
     = after_UpdateFlag h c1 f1.
Proof.
  intros Hf H1 H2 Hdisj.
  pose proof (UpdateFlag_range h c1 f1 Hf H1) as R1.
  pose proof (UpdateFlag_range h c2 f2 Hf H2) as R2.
  unfold after_UpdateFlag. rewrite !set_flags_twice.
  split; f_equal; apply Z.bits_inj'; intros i Hi;
    rewrite !UpdateFlag_testbit by (rewrite ?set_flags_flags; assumption);
    rewrite ?set_flags_flags;
    rewrite ?UpdateFlag_testbit by assumption.
  - assert (Hd : Z.testbit f1 i && Z.testbit f2 i = false)
      by (rewrite <- Z.land_spec, Hdisj; apply Z.bits_0).
    destruct (Z.testbit f1 i), (Z.testbit f2 i); try reflexivity; discriminate.
  - destruct (Z.testbit f1 i); reflexivity.
Qed.

Lemma UpdateFlag_commutes_witness :
  (0 <= flags example_header < two64 /\ 0 <= kNoise < two64
   /\ 0 <= kSplines < two64 /\ Z.land kNoise kSplines = 0)
  /\ flags (after_UpdateFlag (after_UpdateFlag example_header true kNoise)
              true kSplines) = 17
  /\ after_UpdateFlag (after_UpdateFlag example_header true kNoise) true kSplines
     = after_UpdateFlag (after_UpdateFlag example_header true kSplines) true kNoise.
Proof.
  assert (H0 : 0 <= flags example_header < two64) by (vm_compute; split; [discriminate | reflexivity]).
  assert (H1 : 0 <= kNoise < two64) by (vm_compute; split; [discriminate | reflexivity]).
  assert (H2 : 0 <= kSplines < two64) by (vm_compute; split; [discriminate | reflexivity]).
  split; [repeat split; first [apply H0 | apply H1 | apply H2]|].
  split; [reflexivity|].
  exact (proj1 (UpdateFlag_commutes example_header true true kNoise kSplines
                  H0 H1 H2 eq_refl)).
Defined.

Section DimensionsMore.
Context {FrameDimensions : Type}.
Variable FrameDimensions_Set : Z -> Z -> Z -> Z -> Z -> Z -> FrameDimensions.

Lemma rounded_up_bounds (q a b : Z) :
  2 <= b -> 1 <= a -> is_div_rounded_up q a b -> 1 <= q <= a.
Proof. unfold is_div_rounded_up. intros Hb Ha Hq. nia. Qed.

(** X12. A DC frame keeps nonzero dimensions nonzero and never enlarges
    them: when the size a frame starts from is at least 1 in both
    directions and [dc_level] is between 1 and 10, the dimensions passed
    on lie between 1 and the start size. *)
Theorem ToFrameDimensions_dc_bounds (h : t) (md : ImageMetadata.t) :
  nonserialized_image_metadata h = Some md ->
  1 <= dc_level h <= 10 ->
  let start_x :=
    start_size (fs_xsize (frame_size h)) (ImageMetadata.xsize md)
      (ImageMetadata.preview_xsize (ImageMetadata.nonserialized_preview md))
      (nonserialized_is_preview h) in
  let start_y :=
    start_size (fs_ysize (frame_size h)) (ImageMetadata.ysize md)
      (ImageMetadata.preview_ysize (ImageMetadata.nonserialized_preview md))
      (nonserialized_is_preview h) in
  1 <= start_x -> 1 <= start_y ->
  exists xsize ysize,
    ToFrameDimensions FrameDimensions_Set h =
      FrameDimensions_Set xsize ysize (group_size_shift h)
        (YCbCrChromaSubsampling.MaxHShift (chroma_subsampling h))
        (YCbCrChromaSubsampling.MaxVShift (chroma_subsampling h))
        (upsampling h)
    /\ 1 <= xsize <= start_x /\ 1 <= ysize <= start_y.
Proof.
  intros Hm Hd start_x start_y Hx Hy.
  unfold ToFrameDimensions.
  rewrite (FrameHeaderFacts.default_xsize_start h md Hm),
    (FrameHeaderFacts.default_ysize_start h md Hm).
  fold start_x start_y.
  destruct (Z.eqb_spec (dc_level h) 0) as [Hz|Hnz]; [lia|]. cbn [negb].
  exists (DivCeil start_x (dc_divisor h)), (DivCeil start_y (dc_divisor h)).
  split; [reflexivity|].
  rewrite (FrameHeaderFacts.dc_divisor_pow8 h) by lia.
  assert (Hb : 2 <= 8 ^ dc_level h).
  { replace (dc_level h) with (Z.succ (dc_level h - 1)) by lia.
    rewrite Z.pow_succ_r by lia.
    assert (0 < 8 ^ (dc_level h - 1)) by (apply Z.pow_pos_nonneg; lia). lia. }
  split; apply (rounded_up_bounds _ _ (8 ^ dc_level h)); try assumption;
    apply FrameHeaderFacts.DivCeil_rounded_up; lia.
Qed.

(** X13. A header without metadata and without an explicit size passes
    on the dimensions 0 x 0, for every [dc_level] from 0 to 10. *)
Theorem ToFrameDimensions_nullptr (h : t) :
  nonserialized_image_metadata h = None ->
  fs_xsize (frame_size h) = 0 -> fs_ysize (frame_size h) = 0 ->
  0 <= dc_level h <= 10 ->
  ToFrameDimensions FrameDimensions_Set h =
    FrameDimensions_Set 0 0 (group_size_shift h)
      (YCbCrChromaSubsampling.MaxHShift (chroma_subsampling h))
      (YCbCrChromaSubsampling.MaxVShift (chroma_subsampling h))
      (upsampling h).
Proof.
  intros Hm Hx Hy Hd. unfold ToFrameDimensions.
  destruct (FrameHeaderFacts.default_size_nullptr h Hm) as [-> ->].
  rewrite Hx, Hy. cbn [Z.eqb].
  destruct (Z.eqb_spec (dc_level h) 0); cbn [negb]; [reflexivity|].
  rewrite (FrameHeaderFacts.dc_divisor_pow8 h Hd).
  assert (Hb : 0 < 8 ^ dc_level h) by (apply Z.pow_pos_nonneg; lia).
  unfold DivCeil. rewrite Z.div_small by lia. reflexivity.
Qed.

End DimensionsMore.

Lemma ToFrameDimensions_dc_bounds_witness :
  (nonserialized_image_metadata example_header = Some example_metadata
   /\ 1 <= dc_level example_header <= 10 /\ 1 <= 1000 /\ 1 <= 100)
  /\ exists xsize ysize,
       ToFrameDimensions (fun x y (_ _ _ _ : Z) => (x, y)) example_header
       = (xsize, ysize)
       /\ 1 <= xsize <= 1000 /\ 1 <= ysize <= 100.
Proof.
  split; [split; [reflexivity | cbn; lia]|].
  exact (ToFrameDimensions_dc_bounds (fun x y (_ _ _ _ : Z) => (x, y))
           example_header example_metadata eq_refl
           (conj (Zle_bool_imp_le 1 2 eq_refl) (Zle_bool_imp_le 2 10 eq_refl))
           (Zle_bool_imp_le 1 1000 eq_refl) (Zle_bool_imp_le 1 100 eq_refl)).
Defined.

Lemma ToFrameDimensions_nullptr_witness :
  let h := set_flags example_header 0 in
  let h0 :=
    mk (all_default h) (encoding h) (frame_type h) (flags h)
      (color_transform h) (chroma_subsampling h) (group_size_shift h)
      (x_qm_scale h) (name h) (passes h) (custom_size_or_origin h)
      (mkFrameSize 0 0) (upsampling h) (extra_channel_upsampling h)
      (frame_origin h) (blending_info h) (extra_channel_blending_info h)
      (animation_frame h) (is_last h) (save_as_reference h)
      (save_before_color_transform h) 3 None
      (nonserialized_is_preview h) (extensions h) in
  (nonserialized_image_metadata h0 = None
   /\ fs_xsize (frame_size h0) = 0 /\ fs_ysize (frame_size h0) = 0
   /\ 0 <= dc_level h0 <= 10)
  /\ ToFrameDimensions (fun x y (_ _ _ _ : Z) => (x, y)) h0 = (0, 0).
Proof.
  cbv zeta. split; [repeat split; (reflexivity || discriminate)|].
  apply (ToFrameDimensions_nullptr (fun x y (_ _ _ _ : Z) => (x, y)));
    try reflexivity. split; discriminate.
Defined.

End FrameHeaderMore.

(** ** Decoder hints *)

Module DecoderHintsFacts.
Import DecoderHints.

Lemma Foreach_app (func : string -> string -> Status) (h1 h2 : DecoderHints.t) :
  Foreach func (h1 ++ h2) = Foreach func h1 && Foreach func h2.
Proof.
  induction h1 as [|[k v] h1 IH]; [reflexivity|].
  cbn [app Foreach]. unfold JXL_FAILURE.
  destruct (func k v); cbn [negb]; [exact IH | reflexivity].
Qed.

(** X14. [Foreach] succeeds exactly when the function accepts every hint.
    A hint that is added comes last: [Foreach] over the extended list is
    [Foreach] over the old one followed by the call on the new hint. And a
    hint that the function rejects makes [Foreach] fail whatever hints
    come after it. *)
Theorem Foreach_Add (func : string -> string -> Status) (hints : DecoderHints.t) :
  (Foreach func hints = true <->
   forall key value, (key, value) ∈ hints -> func key value = true)
  /\ (forall key value,
        Foreach func (Add hints key value)
        = Foreach func hints && func key value)
  /\ (forall key value later,
        func key value = false ->
        Foreach func (Add hints key value ++ later) = false).
Proof.
  split; [|split].
  - induction hints as [|[k v] hints IH]; cbn [Foreach]; unfold JXL_FAILURE.
    + split; [|reflexivity]. intros _ key value H. apply elem_of_nil in H. contradiction.
    + destruct (func k v) eqn:E; cbn [negb].
      * rewrite IH. split; intros H key value Hin.
        -- apply elem_of_cons in Hin as [[= -> ->]|Hin]; [exact E | auto].
        -- apply H. apply elem_of_cons. auto.
      * split; [discriminate|]. intros H.
        rewrite (H k v) in E; [discriminate|]. apply elem_of_cons. auto.
  - intros key value. unfold Add. rewrite Foreach_app. cbn [Foreach].
    unfold JXL_FAILURE. destruct (func key value); reflexivity.
  - intros key value later Hf. unfold Add.
    rewrite !Foreach_app. cbn [Foreach]. rewrite Hf. cbn.
    rewrite andb_false_r. reflexivity.
Qed.

End DecoderHintsFacts.

(** ** Image bundle: copies and color removal *)

Module ImageBundleMore.
Import ImageBundle.

Section WithColorEncoding.
Context {ColorEncoding : Type}.
Variable ColorEncoding_init : ColorEncoding.
Variable YCbCrChromaSubsampling_init : YCbCrChromaSubsampling.t.
Implicit Type b : ImageBundle.t ColorEncoding.

Local Abbreviation Copy' := (Copy ColorEncoding_init YCbCrChromaSubsampling_init).

Lemma Copy_unfold b :
  Copy' b =
  {| jpeg_data := jpeg_data b; color_transform := color_transform b;
     chroma_subsampling := chroma_subsampling b; origin := mkFrameOrigin 0 0;
     duration := 0; use_for_next_frame := false; blend := false;
     metadata_ := metadata_ b; color_ := color_ b;
     c_current_ := c_current_ b; extra_channels_ := extra_channels_ b;
     decoded_bytes_ := 0 |}.
Proof.
  unfold Copy, new, CopyImage. cbn.
  rewrite ImageBundleFacts.Copy_extra_channels_app. cbn.
  destruct (jpeg_data b); reflexivity.
Qed.

(** X15. A copy answers every size and content query as its source:
    [xsize], [ysize], [IsJPEG], [HasColor] and [HasExtraChannels]. *)
Theorem Copy_same_queries b :
  xsize (Copy ColorEncoding_init YCbCrChromaSubsampling_init b) = xsize b
  /\ ysize (Copy ColorEncoding_init YCbCrChromaSubsampling_init b) = ysize b
  /\ IsJPEG (Copy ColorEncoding_init YCbCrChromaSubsampling_init b) = IsJPEG b
  /\ HasColor (Copy ColorEncoding_init YCbCrChromaSubsampling_init b)
     = HasColor b
  /\ HasExtraChannels (Copy ColorEncoding_init YCbCrChromaSubsampling_init b)
     = HasExtraChannels b.
Proof. rewrite Copy_unfold. repeat split. Qed.

(** X16. Copying a copy gives the copy again, and a bundle is equal to
    its copy exactly when its origin is (0, 0), its duration 0, its two
    flags false and its count of decoded bytes 0. *)
Theorem Copy_idempotent b :
  Copy ColorEncoding_init YCbCrChromaSubsampling_init
    (Copy ColorEncoding_init YCbCrChromaSubsampling_init b)
  = Copy ColorEncoding_init YCbCrChromaSubsampling_init b
  /\ (Copy ColorEncoding_init YCbCrChromaSubsampling_init b = b <->
      origin b = mkFrameOrigin 0 0 /\ duration b = 0
      /\ use_for_next_frame b = false /\ blend b = false
      /\ decoded_bytes_ b = 0).
Proof.
  split.
  - rewrite !Copy_unfold. reflexivity.
  - rewrite Copy_unfold. split.
    + intros E. rewrite <- E. cbn. repeat split.
    + intros (Ho & Hd & Hu & Hb & Hn). destruct b; cbn in *. subst. reflexivity.
Qed.

(** X17. [RemoveColor] leaves a bundle without color. When the bundle
    holds no transcoded payload its size becomes that of the first extra
    channel, or 0 x 0 without extra channels; when it holds a payload its
    size stays the payload's. Nothing but the color image changes. *)
Theorem RemoveColor_size b :
  HasColor (RemoveColor b) = false
  /\ (IsJPEG b = false ->
      (xsize (RemoveColor b), ysize (RemoveColor b))
      = match extra_channels_ b with
        | [] => (0, 0)
        | plane :: _ => (iu_xsize plane, iu_ysize plane)
        end)
  /\ (IsJPEG b = true ->
      xsize (RemoveColor b) = xsize b /\ ysize (RemoveColor b) = ysize b)
  /\ extra_channels_ (RemoveColor b) = extra_channels_ b
  /\ jpeg_data (RemoveColor b) = jpeg_data b
  /\ metadata_ (RemoveColor b) = metadata_ b
  /\ RemoveColor (RemoveColor b) = RemoveColor b.
Proof.
  unfold xsize, ysize, HasColor, IsJPEG, jpeg_width, jpeg_height.
  cbn [RemoveColor jpeg_data color_ extra_channels_ metadata_ Image3F_empty
       i3_xsize i3_ysize Z.eqb negb].
  split; [reflexivity|]. split; [|split].
  - destruct (jpeg_data b); [discriminate|]. intros _.
    destruct (extra_channels_ b); reflexivity.
  - destruct (jpeg_data b); [|discriminate]. intros _. split; reflexivity.
  - repeat split.
Qed.

End WithColorEncoding.

(** The example bundle without its payload: 8 x 8 with color, 4 x 4
    once the color is removed. *)
Example RemoveColor_example :
  let b := example_bundle None example_color [example_extra] in
  (xsize b, ysize b) = (8, 8)
  /\ (xsize (RemoveColor b), ysize (RemoveColor b)) = (4, 4).
Proof. split; reflexivity. Qed.

End ImageBundleMore.

(** ** Codec input and output: limits *)

Module CodecInOutMore.
Import CodecInOut.

Section Limits.
Context {ColorEncoding : Type}.
Implicit Type io : CodecInOut.t ColorEncoding.

(** X18. Within given limits, a smaller nonempty image passes whenever a
    larger one does. *)
Theorem VerifyDimensions_monotone io (xs ys xs' ys' : Z) :
  dec_max_xsize io < two32 -> dec_max_ysize io < two32 ->
  0 < xs' <= xs -> 0 < ys' <= ys ->
  VerifyDimensions io xs ys = true ->
  VerifyDimensions io xs' ys' = true.
Proof.
  intros Hx Hy Hxs Hys Hok.
  apply not_false_iff_true. intros Hf.
  apply (CodecInOutFacts.VerifyDimensions_false_iff io xs' ys') in Hf; try lia.
  assert (Hf' : VerifyDimensions io xs ys = false).
  { apply CodecInOutFacts.VerifyDimensions_false_iff; try lia.
    destruct Hf as [?|[?|[?|[?|?]]]]; try lia.
    right; right; right; right. nia. }
  congruence.
Qed.

(** X19. With the limits a [CodecInOut] is constructed with, the
    dimensions that pass are exactly the nonzero ones below 2^32: the
    pixel limit never rejects them. *)
Theorem VerifyDimensions_default_limits io (xs ys : Z) :
  dec_max_xsize io = dec_max_xsize_init ->
  dec_max_ysize io = dec_max_ysize_init ->
  dec_max_pixels io = dec_max_pixels_init ->
  0 <= xs -> 0 <= ys ->
  VerifyDimensions io xs ys = true <->
  1 <= xs < two32 /\ 1 <= ys < two32.
Proof.
  intros Ex Ey Ep Hxs Hys.
  rewrite <- not_false_iff_true.
  rewrite (CodecInOutFacts.VerifyDimensions_false_iff io xs ys);
    rewrite ?Ex, ?Ey, ?Ep; try assumption;
    unfold dec_max_xsize_init, dec_max_ysize_init, dec_max_pixels_init,
      two32, two64 in *; try lia.
  split.
  - intros H. lia.
  - intros [Hx Hy] [?|[?|[?|[?|?]]]]; try lia. nia.
Qed.

End Limits.

Lemma VerifyDimensions_monotone_witness :
  (dec_max_xsize example_animation < two32
   /\ dec_max_ysize example_animation < two32
   /\ 0 < 10 <= 1000 /\ 0 < 20 <= 1000
   /\ VerifyDimensions example_animation 1000 1000 = true)
  /\ VerifyDimensions example_animation 10 20 = true.
Proof.
  split; [repeat split; (reflexivity || discriminate)|].
  apply (VerifyDimensions_monotone example_animation 1000 1000 10 20);
    try reflexivity; split; (reflexivity || discriminate).
Defined.

Lemma VerifyDimensions_default_limits_witness :
  (dec_max_xsize example_io = dec_max_xsize_init
   /\ dec_max_ysize example_io = dec_max_ysize_init
   /\ dec_max_pixels example_io = dec_max_pixels_init
   /\ 0 <= 4294967295 /\ 0 <= 4294967295)
  /\ (VerifyDimensions example_io 4294967295 4294967295 = true <->
      1 <= 4294967295 < two32 /\ 1 <= 4294967295 < two32).
Proof.
  split; [repeat split; (reflexivity || discriminate)|].
  apply (VerifyDimensions_default_limits example_io);
    (reflexivity || discriminate).
Defined.

Section TransformToMore.
Context {ColorEncoding ThreadPool : Type}.
Variable ImageBundle_TransformTo :
  ColorEncoding -> option ThreadPool -> ImageBundle.t ColorEncoding ->
  Status * ImageBundle.t ColorEncoding.

(** X20. [TransformTo] changes nothing but the preview and the frames:
    the limits, the hints, the target, the pixel count, the metadata and
    the JPEG settings are as before, whether it succeeds or fails, and so
    [VerifyDimensions] answers as before. *)
Theorem TransformTo_keeps_settings (io : CodecInOut.t ColorEncoding)
    (c_desired : ColorEncoding) (pool : option ThreadPool) :
  let io' := snd (TransformTo ImageBundle_TransformTo io c_desired pool) in
  dec_max_xsize io' = dec_max_xsize io
  /\ dec_max_ysize io' = dec_max_ysize io
  /\ dec_max_pixels io' = dec_max_pixels io
  /\ dec_hints io' = dec_hints io
  /\ dec_target io' = dec_target io
  /\ dec_pixels io' = dec_pixels io
  /\ metadata io' = metadata io
  /\ use_sjpeg io' = use_sjpeg io
  /\ jpeg_quality io' = jpeg_quality io
  /\ (forall xs ys, VerifyDimensions io' xs ys = VerifyDimensions io xs ys).
Proof.
  unfold TransformTo, VerifyDimensions.
  destruct (ImageMetadata.have_preview _).
  - destruct (ImageBundle_TransformTo c_desired pool (preview_frame io)) as [ok p].
    destruct ok.
    + cbn [frames set_preview_frame].
      destruct (TransformTo_frames _ c_desired pool (frames io)) as [ok fs].
      cbn. repeat split.
    + cbn. repeat split.
  - destruct (TransformTo_frames _ c_desired pool (frames io)) as [ok fs].
    cbn. repeat split.
Qed.

End TransformToMore.

End CodecInOutMore.

(** ** Names: what a reader accepts and what a writer refuses *)

Module VisitNameStringMore.
Import YCbCrChromaSubsamplingFieldsFacts.

Section NamesMore.
Variable char_is_signed : bool.

Lemma read_loop_length (n i : nat) (name name' : list Z) (s s' : list bool) :
  VisitNameString_loop char_is_signed ReadVisitor n i name s = Some (name', s') ->
  length name' = length name /\ length s = (8 * n + length s')%nat.
Proof.
  revert i name s. induction n as [|n IH]; intros i name s.
  - cbn. unfold visit_ret. intros [= <- <-]. split; [reflexivity | lia].
  - cbn [VisitNameString_loop Visitor.Bits ReadVisitor]. unfold visit_bind.
    destruct (read_bits 8 s) as [[c r]|] eqn:E; [|discriminate].
    intros H. apply IH in H as [Hn Hs]. rewrite length_insert in Hn.
    apply read_bits_Some in E as (_ & _ & _ & Hl).
    split; [assumption | lia].
Qed.

Lemma read_U32_name_length_bound (s s' : list bool) (v : Z) :
  read_U32 (Val 0) (Bits 4) (BitsOffset 5 16) (BitsOffset 10 48) s = Some (v, s') ->
  0 <= v <= 1071
  /\ exists k, (2 <= k <= 12)%nat /\ length s = (k + length s')%nat.
Proof.
  unfold read_U32, visit_bind, visit_ret.
  destruct (read_bits 2 s) as [[sel r]|] eqn:E; [|discriminate].
  apply read_bits_Some in E as (Hsel & _ & _ & Hl).
  change (2 ^ Z.of_nat 2) with 4 in Hsel.
  assert (sel = 0 \/ sel = 1 \/ sel = 2 \/ sel = 3) as [->|[->|[->| ->]]] by lia;
    match goal with
    | |- context [?l !!! Z.to_nat ?k] =>
        let d := eval vm_compute in (l !!! Z.to_nat k) in
        change (l !!! Z.to_nat k) with d
    end; cbn [distr_bits distr_base];
    match goal with
    | |- context [read_bits ?n r] =>
        destruct (read_bits n r) as [[p r']|] eqn:E; [|discriminate];
        apply read_bits_Some in E as (Hp & _ & _ & Hl');
        intros [= <- <-]
    end.
  - change (2 ^ Z.of_nat 0) with 1 in Hp. split; [lia|]. exists 2%nat. lia.
  - change (2 ^ Z.of_nat 4) with 16 in Hp. split; [lia|]. exists 6%nat. lia.
  - change (2 ^ Z.of_nat 5) with 32 in Hp. split; [lia|]. exists 7%nat. lia.
  - change (2 ^ Z.of_nat 10) with 1024 in Hp. split; [lia|]. exists 12%nat. lia.
Qed.

(** X21. Whatever the stream holds, a name that is read has at most 1071
    characters, and reading it takes the length field, of 2 to 12 bits,
    and eight bits for each character of the name, no more. *)
Theorem VisitNameString_read_bound (old name : list Z) (bits rest : list bool) :
  VisitNameString char_is_signed ReadVisitor old bits = Some (name, rest) ->
  (length name <= 1071)%nat
  /\ exists k, (2 <= k <= 12)%nat
               /\ length bits = (k + 8 * length name + length rest)%nat.
Proof.
  unfold VisitNameString, visit_bind.
  cbn [Visitor.U32 Visitor.IsReading ReadVisitor].
  destruct (read_U32 _ _ _ _ bits) as [[v r]|] eqn:E; [|discriminate].
  apply read_U32_name_length_bound in E as (Hv & k & Hk & Hl).
  intros H. apply read_loop_length in H as [Hn Hs].
  rewrite length_resize in Hn.
  split; [lia|]. exists k. split; [assumption | lia].
Qed.

Lemma write_loop_refuses (suf pre : list Z) (s : list bool) :
  Exists (fun ch => 256 <= char_to_uint32 ch) suf ->
  VisitNameString_loop char_is_signed WriteVisitor.WriteVisitor
    (length suf) (length pre) (pre ++ suf) s = None.
Proof.
  revert pre s. induction suf as [|ch suf IH]; intros pre s Hex.
  - inversion Hex.
  - cbn [length VisitNameString_loop Visitor.Bits WriteVisitor.WriteVisitor].
    unfold visit_bind.
    rewrite list_lookup_total_middle by reflexivity.
    unfold write_bits at 1. change (2 ^ Z.of_nat 8) with 256.
    destruct (Z.leb_spec 0 (char_to_uint32 ch)),
      (Z.ltb_spec (char_to_uint32 ch) 256); cbn [andb]; try reflexivity.
    inversion Hex as [? ? Hbad|? ? Hlater]; subst; [lia|].
    replace (length pre) with (length pre + 0)%nat at 2 by lia.
    rewrite insert_app_r. cbn [insert list_insert].
    replace (S (length pre)) with (length (pre ++ [uint32_to_char char_is_signed (char_to_uint32 ch)]))
      by (rewrite length_app; cbn; lia).
    rewrite (cons_middle _ pre suf), app_assoc.
    apply IH. assumption.
Qed.

(** X22. A name that holds a character of negative value, which is what a
    byte from 0x80 on is where [char] is signed, is not written: the
    character is widened to a 32-bit value of 2^32 - 128 or more, which
    no 8-bit field holds. *)
Theorem VisitNameString_write_negative_char (name : list Z) (s : list bool) :
  Z.of_nat (length name) < two32 ->
  Exists (fun ch => -128 <= ch < 0) name ->
  VisitNameString char_is_signed WriteVisitor.WriteVisitor name s = None.
Proof.
  intros Hlen Hex. unfold VisitNameString, visit_bind.
  cbn [Visitor.U32 Visitor.IsReading WriteVisitor.WriteVisitor].
  rewrite Z.mod_small by lia.
  destruct (Z_le_gt_dec (Z.of_nat (length name)) 1071) as [Hle|Hgt].
  - rewrite VisitNameStringFacts.write_U32_name_length by lia.
    rewrite Nat2Z.id.
    apply (write_loop_refuses name []).
    eapply Exists_impl; [exact Hex|]. cbn beta. intros ch Hch.
    unfold char_to_uint32, two32.
    rewrite <- (Z.mod_unique_pos ch (2 ^ 32) (-1) (ch + 2 ^ 32)); lia.
  - rewrite VisitNameStringFacts.write_U32_name_length_fails by lia. reflexivity.
Qed.

End NamesMore.

Lemma VisitNameString_read_bound_witness :
  let bits := name_length_bits 2 ++ name_bits [104; 105] ++ [true] in
  VisitNameString true ReadVisitor [] bits = Some ([104; 105], [true])
  /\ (length [104; 105] <= 1071)%nat
  /\ exists k, (2 <= k <= 12)%nat
               /\ length bits = (k + 8 * length [104; 105] + length [true])%nat.
Proof.
  cbv zeta. split; [reflexivity|].
  exact (VisitNameString_read_bound true [] [104; 105]
           (name_length_bits 2 ++ name_bits [104; 105] ++ [true]) [true]
           eq_refl).
Defined.

Lemma VisitNameString_write_negative_char_witness :
  (Z.of_nat (length [104; -61; 105]) < two32
   /\ Exists (fun ch => -128 <= ch < 0) [104; -61; 105])
  /\ VisitNameString true WriteVisitor.WriteVisitor [104; -61; 105] [] = None.
Proof.
  assert (Hex : Exists (fun ch => -128 <= ch < 0) [104; -61; 105]).
  { apply Exists_cons_tl, Exists_cons_hd. split; [discriminate | reflexivity]. }
  assert (Hlen : Z.of_nat (length [104; -61; 105]) < two32) by reflexivity.
  split; [split; assumption|].
  exact (VisitNameString_write_negative_char true [104; -61; 105] [] Hlen Hex).
Defined.

End VisitNameStringMore.
